(** * models/sequence_to_sequence.py : the encoder-decoder decoding loop

    A shallow embedding of [SequenceToSequence.forward].  Tensors are
    modelled as torch stores them: a shape and the row-major list of the
    elements.  The encoder and the decoder are collaborators of the class;
    they are fields of the model record, may fail and may carry hidden
    state of their own (parameters, random generators), which the
    embedding threads through every call.  Each collaborator call, each
    write into [output] and each assignment of [target_input] inside the
    loop leaves an event in a trace, so that "how often" and "in which
    order" are statements about a list. *)

From Stdlib Require Import String List Arith Lia ZArith Bool.
Import ListNotations.

Set Implicit Arguments.

(** ** Errors and results *)

(** What a call can raise.  [IndexError] is Python's (a tuple or tensor
    index out of range, a reduction dimension that is absent or empty).
    [ShapeMismatchError] stands for the RuntimeError torch raises when
    [reshape] is asked for a shape of another size or when the right-hand
    side of an indexed assignment cannot be broadcast.  [OtherError] is
    whatever else a collaborator raises. *)
Inductive error : Type :=
| IndexError
| ShapeMismatchError
| OtherError (msg : string).

Inductive result (A : Type) : Type :=
| Ok (a : A)
| Err (e : error).

Arguments Ok {A} a.
Arguments Err {A} e.

Definition is_ok {A} (r : result A) : bool :=
  match r with Ok _ => true | Err _ => false end.

(** ** Tensors *)

Module Torch.

Record Tensor (A : Type) : Type := mkTensor {
  shape : list nat;
  data : list A
}.

(** Number of elements of a shape. *)
Definition numel (s : list nat) : nat := fold_right Nat.mul 1 s.

(** A tensor is well formed when its storage has as many elements as its
    shape announces. *)
Definition wf {A} (t : Tensor A) : Prop :=
  length (data t) = numel (shape t).

Definition tabulate {A} (n : nat) (f : nat -> A) : list A :=
  map f (seq 0 n).

(** [torch.zeros(size=s)]. *)
Definition zeros {A} (zero : A) (s : list nat) : Tensor A :=
  mkTensor s (repeat zero (numel s)).

(** [t.shape[i]]: indexing the shape tuple. *)
Definition shape_at {A} (t : Tensor A) (i : nat) : result nat :=
  match nth_error (shape t) i with
  | Some d => Ok d
  | None => Err IndexError
  end.

(** [t[:, j]]: the slice at index [j] of dimension 1. *)
Definition select1 {A} (dflt : A) (t : Tensor A) (j : nat)
  : result (Tensor A) :=
  match shape t with
  | d0 :: d1 :: rest =>
      if j <? d1 then
        let r := numel rest in
        Ok (mkTensor (d0 :: rest)
              (tabulate (d0 * r)
                 (fun p => nth ((p / r * d1 + j) * r + p mod r)
                               (data t) dflt)))
      else Err IndexError
  | _ => Err IndexError
  end.

(** [t.reshape(shape=s)]: same elements in the same order, provided the
    sizes agree. *)
Definition reshape {A} (t : Tensor A) (s : list nat) : result (Tensor A) :=
  if numel s =? numel (shape t) then Ok (mkTensor s (data t))
  else Err ShapeMismatchError.

(** Broadcasting, as used by an indexed assignment: leading dimensions
    of size 1 of the right-hand side are dropped, then every remaining
    dimension, aligned to the right, must equal the destination's or
    be 1. *)
Fixpoint strip1 (s : list nat) : list nat :=
  match s with
  | 1 :: s' => strip1 s'
  | _ => s
  end.

Fixpoint dims_match (vs ds : list nat) : bool :=
  match vs, ds with
  | [], [] => true
  | v :: vs', d :: ds' => ((v =? d) || (v =? 1)) && dims_match vs' ds'
  | _, _ => false
  end.

Definition expandable (vs ds : list nat) : bool :=
  (length vs <=? length ds)
  && dims_match vs (skipn (length ds - length vs) ds).

(** The multi-index of the flat position [p] in shape [s]. *)
Fixpoint unravel (s : list nat) (p : nat) : list nat :=
  match s with
  | [] => []
  | _ :: rest => p / numel rest :: unravel rest (p mod numel rest)
  end.

(** The flat position of a multi-index in shape [s]. *)
Fixpoint ravel (s idx : list nat) : nat :=
  match s, idx with
  | _ :: rest, i :: idx' => i * numel rest + ravel rest idx'
  | _, _ => 0
  end.

(** The index read in the source for a destination index: 0 along a
    broadcast dimension. *)
Fixpoint source_index (vs idx : list nat) : list nat :=
  match vs, idx with
  | v :: vs', i :: idx' =>
      (if v =? 1 then 0 else i) :: source_index vs' idx'
  | _, _ => []
  end.

(** Element [p] of [v] broadcast to shape [ds]. *)
Definition expand_get {A} (dflt : A) (v : Tensor A) (ds : list nat)
  (p : nat) : A :=
  let vs := strip1 (shape v) in
  let idx := skipn (length ds - length vs) (unravel ds p) in
  nth (ravel vs (source_index vs idx)) (data v) dflt.

Definition expand {A} (dflt : A) (v : Tensor A) (ds : list nat)
  : result (Tensor A) :=
  if expandable (strip1 (shape v)) ds
  then Ok (mkTensor ds (tabulate (numel ds) (expand_get dflt v ds)))
  else Err ShapeMismatchError.

(** [t[:, j] = v]: the slice at index [j] of dimension 1 receives [v],
    broadcast; every other element keeps its value. *)
Definition setitem1 {A} (dflt : A) (t : Tensor A) (j : nat) (v : Tensor A)
  : result (Tensor A) :=
  match shape t with
  | d0 :: d1 :: rest =>
      if j <? d1 then
        if expandable (strip1 (shape v)) (d0 :: rest) then
          let r := numel rest in
          Ok (mkTensor (shape t)
                (tabulate (numel (shape t))
                   (fun q =>
                      if (q / r) mod d1 =? j
                      then expand_get dflt v (d0 :: rest)
                             (q / (d1 * r) * r + q mod r)
                      else nth q (data t) dflt)))
        else Err ShapeMismatchError
      else Err IndexError
  | _ => Err IndexError
  end.

(** First index of a maximal element: a later element replaces the
    current best only when it is strictly greater. *)
Fixpoint argmax_from {A} (gtb : A -> A -> bool)
  (best_i : nat) (best : A) (i : nat) (l : list A) : nat :=
  match l with
  | [] => best_i
  | x :: l' =>
      if gtb x best then argmax_from gtb i x (S i) l'
      else argmax_from gtb best_i best (S i) l'
  end.

Definition argmax_list {A} (gtb : A -> A -> bool) (l : list A) : nat :=
  match l with
  | [] => 0
  | x :: l' => argmax_from gtb 0 x 1 l'
  end.

(** [t.argmax(1)]: along dimension 1, the index of the maximum; the
    dimension must exist and must not be empty. *)
Definition argmax1 {A} (dflt : A) (gtb : A -> A -> bool) (t : Tensor A)
  : result (Tensor Z) :=
  match shape t with
  | d0 :: d1 :: rest =>
      if d1 =? 0 then Err IndexError
      else
        let r := numel rest in
        Ok (mkTensor (d0 :: rest)
              (tabulate (d0 * r)
                 (fun p =>
                    Z.of_nat
                      (argmax_list gtb
                         (map (fun j => nth ((p / r * d1 + j) * r + p mod r)
                                            (data t) dflt)
                              (seq 0 d1))))))
  | _ => Err IndexError
  end.

(** The same tensor with every element converted by [f]: what an
    assignment into a tensor of another dtype stores. *)
Definition to_dtype {A B} (f : A -> B) (t : Tensor A) : Tensor B :=
  mkTensor (shape t) (map f (data t)).

(** In a buffer of [T] time steps and [V] scores per step, the flat
    position of element [p] of the slice at time [t]. *)
Definition slice_pos (T V t p : nat) : nat :=
  (p / V * T + t) * V + p mod V.

End Torch.

Import Torch.

(** ** The model *)

Section Model.

(** [float32] is the element type of the buffer, which [torch.zeros]
    allocates with the default dtype, and [zero] its zero.  [score] is
    the element type of the distributions the decoder returns, whatever
    its dtype: [score0] is what a read outside the storage of an
    ill-formed distribution yields, [gtb] the strict "greater than" of
    [argmax], and [to_float32] the conversion an assignment into the
    buffer applies to every element.  The recurrent layers (hidden and
    cell) are opaque; [W] is whatever state the collaborators keep
    between calls. *)
Variable float32 : Type.
Variable zero : float32.
Variable score : Type.
Variable score0 : score.
Variable to_float32 : score -> float32.
Variable gtb : score -> score -> bool.
Variable layer : Type.
Variable W : Type.

(** What a run leaves behind, in order. *)
Inductive event : Type :=
| EvEncode (src : Tensor Z)
| EvDecode (inp : Tensor Z) (returned : option (Tensor score))
| EvWrite (idx : nat) (value : Tensor score)
| EvSelect (idx : nat) (inp : Tensor Z).

(** A computation returns or raises, emits events and moves the
    collaborators' state. *)
Definition M (A : Type) : Type := W -> result A * list event * W.

Definition ret {A} (a : A) : M A := fun w => (Ok a, [], w).

Definition bind {A B} (m : M A) (f : A -> M B) : M B :=
  fun w =>
    match m w with
    | (Ok a, es, w1) =>
        match f a w1 with
        | (r, es', w2) => (r, es ++ es', w2)
        end
    | (Err e, es, w1) => (Err e, es, w1)
    end.

Definition lift {A} (r : result A) : M A := fun w => (r, [], w).

Definition tell (e : event) : M unit := fun w => (Ok tt, [e], w).

Notation "x <- m ;; k" := (bind m (fun x => k))
  (at level 61, m at next level, right associativity).

(** The collaborators. *)
Definition Encoder : Type :=
  Tensor Z -> W -> result (layer * layer) * W.

Record Decoder : Type := mkDecoder {
  fc_out_out_features : nat;
  Decoder_forward :
    Tensor Z -> layer -> layer -> W ->
    result (Tensor score * layer * layer) * W
}.

Record SequenceToSequence : Type := mkSequenceToSequence {
  encoder : Encoder;
  decoder : Decoder
}.

(** [self.encoder(tokenized_source_sentence)]. *)
Definition call_encoder (self : SequenceToSequence) (src : Tensor Z)
  : M (layer * layer) :=
  fun w =>
    match encoder self src w with
    | (r, w1) => (r, [EvEncode src], w1)
    end.

Definition returned_distribution
  (r : result (Tensor score * layer * layer)) : option (Tensor score) :=
  match r with
  | Ok (d, _, _) => Some d
  | Err _ => None
  end.

(** [self.decoder(target_input, hidden_layer, cell_layer)]. *)
Definition call_decoder (self : SequenceToSequence)
  (target_input : Tensor Z) (hidden_layer cell_layer : layer)
  : M (Tensor score * layer * layer) :=
  fun w =>
    match Decoder_forward (decoder self) target_input
            hidden_layer cell_layer w with
    | (r, w1) => (r, [EvDecode target_input (returned_distribution r)], w1)
    end.

(** [output[:, prediction_index] = decoder_output]: the distribution is
    converted to the element type of the buffer and broadcast into the
    slice. *)
Definition write_output (output : Tensor float32) (prediction_index : nat)
  (decoder_output : Tensor score) : M (Tensor float32) :=
  output' <-
    lift (setitem1 zero output prediction_index
            (to_dtype to_float32 decoder_output)) ;;
  _ <- tell (EvWrite prediction_index decoder_output) ;;
  ret output'.

(** [tokenized_target_sentence[:, j].reshape(shape=(batch_size, 1))]. *)
Definition target_column (tokenized_target_sentence : Tensor Z)
  (batch_size j : nat) : result (Tensor Z) :=
  match select1 0%Z tokenized_target_sentence j with
  | Ok col => reshape col [batch_size; 1]
  | Err e => Err e
  end.

(** The conditional expression assigned to [target_input] at the end of
    the loop body. *)
Definition next_target_input (tokenized_target_sentence : Tensor Z)
  (batch_size : nat) (teacher_forcing : bool) (prediction_index : nat)
  (decoder_output : Tensor score) : result (Tensor Z) :=
  if teacher_forcing
  then target_column tokenized_target_sentence batch_size prediction_index
  else argmax1 score0 gtb decoder_output.

(** The loop variables. *)
Record loop_state : Type := mkLoopState {
  output : Tensor float32;
  hidden_layer : layer;
  cell_layer : layer;
  target_input : Tensor Z
}.

(** One iteration of [for prediction_index in range(1, length)]. *)
Definition loop_body (self : SequenceToSequence)
  (tokenized_target_sentence : Tensor Z) (batch_size : nat)
  (teacher_forcing : bool) (prediction_index : nat) (s : loop_state)
  : M loop_state :=
  r <- call_decoder self (target_input s) (hidden_layer s) (cell_layer s) ;;
  let '(decoder_output, hidden_layer', cell_layer') := r in
  output' <- write_output (output s) prediction_index decoder_output ;;
  target_input' <-
    lift (next_target_input tokenized_target_sentence batch_size
            teacher_forcing prediction_index decoder_output) ;;
  _ <- tell (EvSelect prediction_index target_input') ;;
  ret (mkLoopState output' hidden_layer' cell_layer' target_input').

Fixpoint loop (self : SequenceToSequence)
  (tokenized_target_sentence : Tensor Z) (batch_size : nat)
  (teacher_forcing : bool) (indices : list nat) (s : loop_state)
  : M (Tensor float32) :=
  match indices with
  | [] => ret (output s)
  | prediction_index :: indices' =>
      s' <- loop_body self tokenized_target_sentence batch_size
              teacher_forcing prediction_index s ;;
      loop self tokenized_target_sentence batch_size teacher_forcing
        indices' s'
  end.

(** Python's [range(1, n)]. *)
Definition range1 (n : nat) : list nat := seq 1 (n - 1).

(** [SequenceToSequence.forward], with the flag given. *)
Definition forward (self : SequenceToSequence)
  (tokenized_source_sentence tokenized_target_sentence : Tensor Z)
  (teacher_forcing : bool) : M (Tensor float32) :=
  batch_size <- lift (shape_at tokenized_source_sentence 0) ;;
  target_sentence_length <- lift (shape_at tokenized_target_sentence 1) ;;
  let target_sentence_vocab_length :=
    fc_out_out_features (decoder self) in
  let output0 :=
    zeros zero
      [batch_size; target_sentence_length; target_sentence_vocab_length] in
  hc <- call_encoder self tokenized_source_sentence ;;
  let '(hidden_layer0, cell_layer0) := hc in
  target_input0 <-
    lift (target_column tokenized_target_sentence batch_size 0) ;;
  loop self tokenized_target_sentence batch_size teacher_forcing
    (range1 target_sentence_length)
    (mkLoopState output0 hidden_layer0 cell_layer0 target_input0).

(** The call as the signature allows it: [teacher_forcing] is a keyword
    parameter with default [True]. *)
Definition forward_call (self : SequenceToSequence)
  (tokenized_source_sentence tokenized_target_sentence : Tensor Z)
  (teacher_forcing : option bool) : M (Tensor float32) :=
  forward self tokenized_source_sentence tokenized_target_sentence
    (match teacher_forcing with
     | Some flag => flag
     | None => true
     end).

(** Reading a trace. *)
Definition encoder_calls (es : list event) : list (Tensor Z) :=
  flat_map (fun e => match e with EvEncode src => [src] | _ => [] end) es.

Definition decoder_inputs (es : list event) : list (Tensor Z) :=
  flat_map (fun e => match e with EvDecode inp _ => [inp] | _ => [] end) es.

Definition decoder_outputs (es : list event) : list (Tensor score) :=
  flat_map (fun e => match e with
                     | EvDecode _ (Some d) => [d]
                     | _ => []
                     end) es.

Definition writes (es : list event) : list (nat * Tensor score) :=
  flat_map (fun e => match e with EvWrite i d => [(i, d)] | _ => [] end) es.

Definition selections (es : list event) : list (nat * Tensor Z) :=
  flat_map (fun e => match e with EvSelect i t => [(i, t)] | _ => [] end) es.

(** The inputs the loop feeds the decoder: well-formed tensors shaped as
    the reshaped target column or, without teacher forcing, as what
    [argmax(1)] returns. *)
Definition fed_input (batch_size : nat) (teacher_forcing : bool)
  (inp : Tensor Z) : Prop :=
  wf inp
  /\ (shape inp = [batch_size; 1]
      \/ (teacher_forcing = false /\ shape inp = [batch_size])).

(** The parts of a run. *)
Definition result_of {A} (run : result A * list event * W) : result A :=
  fst (fst run).

Definition trace_of {A} (run : result A * list event * W) : list event :=
  snd (fst run).

Definition state_of {A} (run : result A * list event * W) : W :=
  snd run.

(** The collaborators' state [w'] is reached from [w] by calls of the
    decoder and by nothing else. *)
Inductive decoder_steps (dec : Decoder) : W -> W -> Prop :=
| decoder_steps_none (w : W) : decoder_steps dec w w
| decoder_steps_call (w w' : W) (inp : Tensor Z) (h c : layer) :
    decoder_steps dec (snd (Decoder_forward dec inp h c w)) w' ->
    decoder_steps dec w w'.

(** Collaborators whose answer does not depend on their hidden state. *)
Definition deterministic_encoder (enc : Encoder) : Prop :=
  forall src w1 w2, fst (enc src w1) = fst (enc src w2).

Definition deterministic_decoder (dec : Decoder) : Prop :=
  forall inp h c w1 w2,
    fst (Decoder_forward dec inp h c w1)
    = fst (Decoder_forward dec inp h c w2).

End Model.

Arguments EvEncode {score} src.
Arguments EvDecode {score} inp returned.
Arguments EvWrite {score} idx value.
Arguments EvSelect {score} idx inp.

(** ** Stub collaborators for concrete runs

    The decoders return integer scores (dtype int64); a float32 is
    written as the integer it holds, which is all the stubs ever store;
    the layers carry nothing, and the hidden state counts the calls made
    so far. *)

(** The float32 nearest to an integer, ties to the even significand:
    exact below [2^24], 24 significant bits above. *)
Definition float32_of_int64 (x : Z) : Z :=
  let a := Z.abs x in
  let n := Z.log2 a in
  if (n <? 24)%Z then x
  else
    let e := (n - 23)%Z in
    let q := (a / 2 ^ e)%Z in
    let r := (a mod 2 ^ e)%Z in
    let half := (2 ^ (e - 1))%Z in
    let q' :=
      if (half <? r)%Z || ((r =? half)%Z && Z.odd q) then (q + 1)%Z else q in
    (Z.sgn x * q' * 2 ^ e)%Z.

Definition stub_encoder : Encoder unit nat :=
  fun _ calls => (Ok (tt, tt), S calls).

(** An encoder that refuses every source. *)
Definition failing_encoder : Encoder unit nat :=
  fun _ calls => (Err (OtherError "encoder"), S calls).

(** The decoder of the concrete scenario: for every batch element the
    one-hot row at [(token + 1) mod vocab]. *)
Definition one_hot (vocab : nat) (k : nat) : list Z :=
  map (fun j => if j =? k then 1%Z else 0%Z) (seq 0 vocab).

Definition one_hot_decoder (vocab : nat) : Decoder Z unit nat :=
  mkDecoder vocab
    (fun inp h c calls =>
       let batch := hd 0 (shape inp) in
       (Ok (mkTensor [batch; vocab]
              (flat_map
                 (fun p =>
                    one_hot vocab
                      (Z.to_nat (nth p (data inp) 0%Z + 1) mod vocab))
                 (seq 0 batch)),
            h, c),
        S calls)).

(** The same decoder, insisting on the input shape its interface
    announces: one token per batch element, shape (batch, 1). *)
Definition strict_one_hot_decoder (vocab : nat) : Decoder Z unit nat :=
  mkDecoder vocab
    (fun inp h c calls =>
       match shape inp with
       | [_; 1] => Decoder_forward (one_hot_decoder vocab) inp h c calls
       | _ => (Err (OtherError "decoder input is not (batch, 1)"), S calls)
       end).

(** A decoder that answers the same distribution whatever it is fed. *)
Definition constant_decoder (vocab : nat) (d : Tensor Z)
  : Decoder Z unit nat :=
  mkDecoder vocab (fun _ h c calls => (Ok (d, h, c), S calls)).

Definition stub_model (dec : Decoder Z unit nat)
  : SequenceToSequence Z unit nat :=
  mkSequenceToSequence stub_encoder dec.

Definition scenario_target : Tensor Z :=
  mkTensor [2; 4] [0; 1; 2; 3; 0; 4; 1; 2]%Z.

Definition scenario_source : Tensor Z :=
  mkTensor [2; 3] [3; 1; 4; 1; 0; 2]%Z.

Definition scenario_model : SequenceToSequence Z unit nat :=
  stub_model (one_hot_decoder 5).

(** What the scenario is expected to return: zeros at time 0, then the
    one-hot rows at the token that follows the ground-truth input. *)
Definition scenario_output : Tensor Z :=
  mkTensor [2; 4; 5]
    [0; 0; 0; 0; 0;  0; 1; 0; 0; 0;  0; 0; 1; 0; 0;  0; 0; 0; 1; 0;
     0; 0; 0; 0; 0;  0; 1; 0; 0; 0;  1; 0; 0; 0; 0;  0; 0; 1; 0; 0]%Z.

(** An int64 distribution with two scores that float32 cannot hold,
    [2^24 + 1] and [2^24 + 3], and what the scenario returns with a
    decoder answering it: the buffer holds their float32 neighbours. *)
Definition wide_distribution : Tensor Z :=
  mkTensor [2; 5] [16777217; 0; 0; 0; 0;  1; 2; 3; 4; 16777219]%Z.

Definition wide_output : Tensor Z :=
  mkTensor [2; 4; 5]
    [0; 0; 0; 0; 0;  16777216; 0; 0; 0; 0;
     16777216; 0; 0; 0; 0;  16777216; 0; 0; 0; 0;
     0; 0; 0; 0; 0;  1; 2; 3; 4; 16777220;
     1; 2; 3; 4; 16777220;  1; 2; 3; 4; 16777220]%Z.

(** A source of three sentences, against the two of the scenario. *)
Definition mismatch_source : Tensor Z :=
  mkTensor [3; 2] [1; 2; 3; 4; 0; 1]%Z.

(** A target that holds the start token only. *)
Definition start_only_target : Tensor Z := mkTensor [2; 1] [0; 0]%Z.

(** A distribution with ties at the maximum: in the first row the
    maximum 3 is at indices 1 and 2, in the second the maximum 5 at
    indices 0 and 2. *)
Definition tied_distribution : Tensor Z :=
  mkTensor [2; 3] [1; 3; 3; 5; 2; 5]%Z.

Definition greedy_target : Tensor Z := mkTensor [2; 3] [0; 1; 2; 0; 2; 1]%Z.

Definition greedy_model : SequenceToSequence Z unit nat :=
  stub_model (constant_decoder 3 tied_distribution).

(** The run without teacher forcing on which the greedy branch is
    examined. *)
Definition greedy_run : result (Tensor Z) * list (event Z) * nat :=
  forward 0%Z 0%Z float32_of_int64 Z.gtb greedy_model scenario_source
      greedy_target false 0.

(** ** The decoding chain

    What the loop asks of the decoder, without the buffer: the decoder
    is called on the current input in the current recurrent layers and
    collaborator state; its distribution is kept, the layers and the
    state it returns replace the current ones, and the next input is the
    one the conditional expression of the loop selects.  The chain ends
    at the first call or selection that raises. *)

Section Chain.

Variable score : Type.
Variable score0 : score.
Variable gtb : score -> score -> bool.
Variable layer : Type.
Variable W : Type.

Fixpoint decoder_chain (self : SequenceToSequence score layer W)
  (tokenized_target_sentence : Tensor Z) (batch_size : nat)
  (teacher_forcing : bool) (indices : list nat)
  (target_input : Tensor Z) (hidden_layer cell_layer : layer) (w : W)
  : list (Tensor score) :=
  match indices with
  | [] => []
  | prediction_index :: indices' =>
      match Decoder_forward (decoder self) target_input
              hidden_layer cell_layer w with
      | (Ok (decoder_output, hidden_layer', cell_layer'), w') =>
          decoder_output ::
          match next_target_input score0 gtb tokenized_target_sentence
                  batch_size teacher_forcing prediction_index
                  decoder_output with
          | Ok target_input' =>
              decoder_chain self tokenized_target_sentence batch_size
                teacher_forcing indices' target_input'
                hidden_layer' cell_layer' w'
          | Err _ => []
          end
      | (Err _, _) => []
      end
  end.

(** Row [i] of a (batch, [V]) distribution. *)
Definition distribution_row (d : Tensor score) (V i : nat) : list score :=
  map (fun j => nth (i * V + j) (data d) score0) (seq 0 V).

(** [gtb] is the strict part of a total preorder: nothing is greater
    than itself, and an element greater than [z] is greater than every
    element that is not greater than [z]. *)
Definition strict_weak_order : Prop :=
  (forall x, gtb x x = false)
  /\ (forall x y z, gtb x y = true -> gtb y z = true -> gtb x z = true)
  /\ (forall x y z, gtb x z = true -> gtb y z = false -> gtb x y = true).

End Chain.

(** ** More stub collaborators and inputs *)

(** A decoder that refuses every input. *)
Definition failing_decoder (vocab : nat) : Decoder Z unit nat :=
  mkDecoder vocab (fun _ _ _ calls => (Err (OtherError "decoder"), S calls)).

(** A decoder whose answer depends on the collaborator state: every row
    is the one-hot row at the number of calls made so far. *)
Definition counting_decoder (vocab : nat) : Decoder Z unit nat :=
  mkDecoder vocab
    (fun inp h c calls =>
       let batch := hd 0 (shape inp) in
       (Ok (mkTensor [batch; vocab]
              (flat_map (fun _ => one_hot vocab (calls mod vocab))
                 (seq 0 batch)),
            h, c),
        S calls)).

(** A tensor without dimensions, a vector, and a target without
    columns. *)
Definition scalar_tensor : Tensor Z := mkTensor [] [7]%Z.

Definition vector_tensor : Tensor Z := mkTensor [2] [0; 0]%Z.

Definition empty_target : Tensor Z := mkTensor [2; 0] [].

(** Distributions narrower than the five scores the decoder declares. *)
Definition narrow_distribution : Tensor Z :=
  mkTensor [2; 3] [1; 2; 3; 4; 5; 6]%Z.

Definition column_distribution : Tensor Z := mkTensor [2; 1] [7; 9]%Z.

(** What the scenario returns with a decoder answering
    [column_distribution], and with the counting decoder. *)
Definition column_output : Tensor Z :=
  mkTensor [2; 4; 5]
    [0; 0; 0; 0; 0;  7; 7; 7; 7; 7;  7; 7; 7; 7; 7;  7; 7; 7; 7; 7;
     0; 0; 0; 0; 0;  9; 9; 9; 9; 9;  9; 9; 9; 9; 9;  9; 9; 9; 9; 9]%Z.

Definition counting_output : Tensor Z :=
  mkTensor [2; 4; 5]
    [0; 0; 0; 0; 0;  0; 1; 0; 0; 0;  0; 0; 1; 0; 0;  0; 0; 0; 1; 0;
     0; 0; 0; 0; 0;  0; 1; 0; 0; 0;  0; 0; 1; 0; 0;  0; 0; 0; 1; 0]%Z.

(** The scenario's target with another last column, and with other
    columns after the start token. *)
Definition scenario_target_last : Tensor Z :=
  mkTensor [2; 4] [0; 1; 2; 0; 0; 4; 1; 4]%Z.

Definition scenario_target_rest : Tensor Z :=
  mkTensor [2; 4] [0; 3; 3; 3; 0; 2; 2; 2]%Z.

(** ** Concrete runs of the tensor operations *)

Example select1_ex :
  select1 0%Z (mkTensor [2; 4] [0; 1; 2; 3; 0; 4; 1; 2]%Z) 1
  = Ok (mkTensor [2] [1; 4]%Z).
Proof. reflexivity. Qed.

Example setitem1_ex :
  setitem1 0 (zeros 0 [2; 2; 3]) 1 (mkTensor [2; 3] [1; 2; 3; 4; 5; 6])
  = Ok (mkTensor [2; 2; 3] [0; 0; 0; 1; 2; 3; 0; 0; 0; 4; 5; 6]).
Proof. reflexivity. Qed.

Example setitem1_broadcast_ex :
  setitem1 0 (zeros 0 [2; 2; 3]) 1 (mkTensor [1; 3] [7; 8; 9])
  = Ok (mkTensor [2; 2; 3] [0; 0; 0; 7; 8; 9; 0; 0; 0; 7; 8; 9]).
Proof. reflexivity. Qed.

Example float32_of_int64_ex :
  map float32_of_int64 [5; 16777216; 16777217; 16777218; 16777219; -16777217]%Z
  = [5; 16777216; 16777216; 16777218; 16777220; -16777216]%Z.
Proof. vm_compute. reflexivity. Qed.

Example argmax1_ex :
  argmax1 0%Z Z.gtb (mkTensor [2; 3] [5; 9; 9; 4; 1; 4]%Z)
  = Ok (mkTensor [2] [1; 0]%Z).
Proof. reflexivity. Qed.

Example scenario_run :
  forward 0%Z 0%Z float32_of_int64 Z.gtb scenario_model scenario_source
      scenario_target true 0
  = (Ok scenario_output,
     [EvEncode scenario_source;
      EvDecode (mkTensor [2; 1] [0; 0]%Z)
        (Some (mkTensor [2; 5] [0; 1; 0; 0; 0; 0; 1; 0; 0; 0]%Z));
      EvWrite 1 (mkTensor [2; 5] [0; 1; 0; 0; 0; 0; 1; 0; 0; 0]%Z);
      EvSelect 1 (mkTensor [2; 1] [1; 4]%Z);
      EvDecode (mkTensor [2; 1] [1; 4]%Z)
        (Some (mkTensor [2; 5] [0; 0; 1; 0; 0; 1; 0; 0; 0; 0]%Z));
      EvWrite 2 (mkTensor [2; 5] [0; 0; 1; 0; 0; 1; 0; 0; 0; 0]%Z);
      EvSelect 2 (mkTensor [2; 1] [2; 1]%Z);
      EvDecode (mkTensor [2; 1] [2; 1]%Z)
        (Some (mkTensor [2; 5] [0; 0; 0; 1; 0; 0; 0; 1; 0; 0]%Z));
      EvWrite 3 (mkTensor [2; 5] [0; 0; 0; 1; 0; 0; 0; 1; 0; 0]%Z);
      EvSelect 3 (mkTensor [2; 1] [3; 2]%Z)],
     4).
Proof. vm_compute. reflexivity. Qed.

Unset Implicit Arguments.

(** ** Lists built by [tabulate] *)

Lemma length_tabulate {A} (n : nat) (f : nat -> A) :
  length (tabulate n f) = n.
Proof. unfold tabulate. now rewrite length_map, length_seq. Qed.

Lemma nth_tabulate {A} (n : nat) (f : nat -> A) (d : A) (p : nat) :
  p < n -> nth p (tabulate n f) d = f p.
Proof.
  intros Hp. unfold tabulate.
  rewrite (nth_indep _ d (f 0)) by (now rewrite length_map, length_seq).
  rewrite (map_nth f (seq 0 n) 0 p).
  now rewrite seq_nth.
Qed.

Lemma nth_tabulate_beyond {A} (n : nat) (f : nat -> A) (d : A) (p : nat) :
  n <= p -> nth p (tabulate n f) d = d.
Proof. intros Hp. apply nth_overflow. now rewrite length_tabulate. Qed.

Lemma tabulate_ext {A} (n : nat) (f g : nat -> A) :
  (forall p, p < n -> f p = g p) -> tabulate n f = tabulate n g.
Proof.
  intros H. unfold tabulate. apply map_ext_in.
  intros p Hp. apply in_seq in Hp. apply H. lia.
Qed.

Lemma tabulate_const {A} (n : nat) (z : A) :
  tabulate n (fun _ => z) = repeat z n.
Proof.
  unfold tabulate. generalize 0.
  induction n as [|n IH]; intros k; simpl; [reflexivity|].
  now rewrite IH.
Qed.

Lemma tabulate_nth {A} (l : list A) (d : A) :
  tabulate (length l) (fun p => nth p l d) = l.
Proof.
  apply (nth_ext _ _ d d).
  - apply length_tabulate.
  - intros p Hp. rewrite length_tabulate in Hp.
    now rewrite nth_tabulate.
Qed.

Lemma nth_repeat_any {A} (z : A) (n p : nat) : nth p (repeat z n) z = z.
Proof.
  revert p. induction n as [|n IH]; intros [|p]; simpl; auto.
Qed.

(** ** Index arithmetic of a (batch, time, vocabulary) buffer *)

Section Indexing.

Variables b T V : nat.

Lemma slice_pos_time (t p : nat) :
  p < b * V -> t < T -> (slice_pos T V t p / V) mod T = t.
Proof.
  intros Hp Ht. unfold slice_pos.
  assert (HV : V <> 0) by (intros ->; lia).
  rewrite Nat.div_add_l by assumption.
  rewrite (Nat.div_small (p mod V)) by (now apply Nat.mod_upper_bound).
  rewrite Nat.add_0_r, Nat.add_comm, Nat.Div0.mod_add.
  now apply Nat.mod_small.
Qed.

Lemma slice_pos_batch (t p : nat) :
  p < b * V -> t < T -> slice_pos T V t p / (T * V) = p / V.
Proof.
  intros Hp Ht. unfold slice_pos.
  assert (HV : V <> 0) by (intros ->; lia).
  assert (Hm : p mod V < V) by (now apply Nat.mod_upper_bound).
  replace ((p / V * T + t) * V + p mod V)
    with (p / V * (T * V) + (t * V + p mod V)) by lia.
  assert (HTV : T * V <> 0) by nia.
  rewrite Nat.div_add_l by assumption.
  rewrite (Nat.div_small (t * V + p mod V)) by nia.
  lia.
Qed.

Lemma slice_pos_vocab (t p : nat) :
  slice_pos T V t p mod V = p mod V.
Proof.
  unfold slice_pos.
  rewrite Nat.add_comm, Nat.Div0.mod_add.
  apply Nat.Div0.mod_mod.
Qed.

Lemma slice_pos_bound (t p : nat) :
  p < b * V -> t < T -> slice_pos T V t p < b * (T * V).
Proof.
  intros Hp Ht. unfold slice_pos.
  assert (HV : V <> 0) by (intros ->; lia).
  assert (Hm : p mod V < V) by (now apply Nat.mod_upper_bound).
  assert (Hd : p / V < b).
  { apply Nat.Div0.div_lt_upper_bound. lia. }
  nia.
Qed.

Lemma slice_pos_rebuild (t p : nat) :
  p < b * V -> t < T ->
  slice_pos T V t p / (T * V) * V + slice_pos T V t p mod V = p.
Proof.
  intros Hp Ht.
  rewrite slice_pos_batch, slice_pos_vocab by assumption.
  assert (HV : V <> 0) by (intros ->; lia).
  pose proof (Nat.div_mod_eq p V). lia.
Qed.

End Indexing.

(** ** Reading and writing time slices of the buffer *)

Section Slices.

Variable A : Type.
Variable z : A.
Variables b T V : nat.

Lemma numel_1 : numel [V] = V.
Proof. simpl. apply Nat.mul_1_r. Qed.

Lemma numel_2 : numel [b; V] = b * V.
Proof. simpl. now rewrite Nat.mul_1_r. Qed.

Lemma numel_3 : numel [b; T; V] = b * (T * V).
Proof. simpl. now rewrite Nat.mul_1_r. Qed.

Lemma select1_buffer (t : Tensor A) (j : nat) :
  shape t = [b; T; V] -> j < T ->
  select1 z t j
  = Ok (mkTensor [b; V]
          (tabulate (b * V) (fun p => nth (slice_pos T V j p) (data t) z))).
Proof.
  intros Hs Hj. unfold select1. rewrite Hs, numel_1.
  apply Nat.ltb_lt in Hj. now rewrite Hj.
Qed.

Lemma setitem1_inv (t t' v : Tensor A) (j : nat) :
  shape t = [b; T; V] -> setitem1 z t j v = Ok t' ->
  j < T
  /\ expandable (strip1 (shape v)) [b; V] = true
  /\ t' = mkTensor [b; T; V]
            (tabulate (b * (T * V))
               (fun q =>
                  if (q / V) mod T =? j
                  then expand_get z v [b; V] (q / (T * V) * V + q mod V)
                  else nth q (data t) z)).
Proof.
  intros Hs. unfold setitem1. rewrite Hs, numel_1, numel_3.
  destruct (j <? T) eqn:Hj; [|discriminate].
  destruct (expandable (strip1 (shape v)) [b; V]) eqn:He; [|discriminate].
  intros [= <-]. apply Nat.ltb_lt in Hj. auto.
Qed.

Lemma setitem1_shape (t t' v : Tensor A) (j : nat) :
  shape t = [b; T; V] -> setitem1 z t j v = Ok t' ->
  shape t' = [b; T; V] /\ wf t'.
Proof.
  intros Hs Hw. destruct (setitem1_inv _ _ _ _ Hs Hw) as (_ & _ & ->).
  split; [reflexivity|].
  unfold wf. simpl data. simpl shape.
  now rewrite length_tabulate, numel_3.
Qed.

(** A write at time [j] leaves every other time step as it was. *)
Lemma setitem1_frame (t t' v : Tensor A) (j : nat) :
  shape t = [b; T; V] -> wf t -> setitem1 z t j v = Ok t' ->
  forall q, (q / V) mod T <> j -> nth q (data t') z = nth q (data t) z.
Proof.
  intros Hs Hwf Hw q Hq.
  destruct (setitem1_inv _ _ _ _ Hs Hw) as (_ & _ & ->). simpl data.
  destruct (Nat.lt_ge_cases q (b * (T * V))) as [Hlt | Hge].
  - rewrite nth_tabulate by assumption.
    apply Nat.eqb_neq in Hq. now rewrite Hq.
  - rewrite nth_tabulate_beyond by assumption.
    symmetry. apply nth_overflow.
    unfold wf in Hwf. rewrite Hwf, Hs, numel_3. assumption.
Qed.

(** After a write at time [j], the slice at [j] is the written value,
    broadcast to (batch, vocabulary). *)
Lemma setitem1_slice (t t' v : Tensor A) (j : nat) :
  shape t = [b; T; V] -> setitem1 z t j v = Ok t' ->
  select1 z t' j = expand z v [b; V].
Proof.
  intros Hs Hw.
  destruct (setitem1_inv _ _ _ _ Hs Hw) as (Hj & He & ->).
  rewrite select1_buffer by (auto; reflexivity).
  unfold expand. rewrite He, numel_2. do 2 f_equal.
  apply tabulate_ext. intros p Hp. simpl data.
  rewrite nth_tabulate by (now apply slice_pos_bound).
  rewrite (slice_pos_time b) by assumption.
  rewrite Nat.eqb_refl.
  now rewrite (slice_pos_rebuild b) by assumption.
Qed.

(** The slice at [j] only depends on the elements at time [j]. *)
Lemma select1_agree (t1 t2 : Tensor A) (j : nat) :
  shape t1 = [b; T; V] -> shape t2 = [b; T; V] ->
  (forall q, (q / V) mod T = j -> nth q (data t1) z = nth q (data t2) z) ->
  select1 z t1 j = select1 z t2 j.
Proof.
  intros H1 H2 Hagree.
  destruct (Nat.lt_ge_cases j T) as [Hj | Hj].
  - rewrite !select1_buffer by assumption. do 2 f_equal.
    apply tabulate_ext. intros p Hp. apply Hagree.
    now apply (slice_pos_time b).
  - unfold select1. rewrite H1, H2.
    apply Nat.ltb_ge in Hj. now rewrite Hj.
Qed.

Lemma select1_zeros (t : Tensor A) :
  shape t = [b; T; V] -> 1 <= T ->
  (forall q, (q / V) mod T = 0 -> nth q (data t) z = z) ->
  select1 z t 0 = Ok (zeros z [b; V]).
Proof.
  intros Hs HT Hz.
  rewrite select1_buffer by (auto; lia).
  unfold zeros. rewrite numel_2, <- tabulate_const. do 2 f_equal.
  apply tabulate_ext. intros p Hp. apply Hz.
  apply (slice_pos_time b); [assumption | lia].
Qed.

End Slices.

(** ** Broadcasting a (batch, vocabulary) value onto itself *)

Lemma strip1_2 (b V : nat) :
  strip1 [b; V]
  = if b =? 1 then (if V =? 1 then [] else [V]) else [b; V].
Proof. destruct b as [|[|b]]; destruct V as [|[|V]]; reflexivity. Qed.

Lemma expandable_same_2 (b V : nat) :
  expandable (strip1 [b; V]) [b; V] = true.
Proof.
  rewrite strip1_2.
  destruct (b =? 1) eqn:Hb; [destruct (V =? 1) eqn:HV|];
    unfold expandable; simpl; rewrite ?Nat.eqb_refl; reflexivity.
Qed.

Lemma expand_get_same_2 {A} (z : A) (d : Tensor A) (b V p : nat) :
  shape d = [b; V] -> p < b * V ->
  expand_get z d [b; V] p = nth p (data d) z.
Proof.
  intros Hs Hp. unfold expand_get. rewrite Hs, strip1_2.
  assert (HV : V <> 0) by (intros ->; lia).
  destruct (b =? 1) eqn:Hb; [destruct (V =? 1) eqn:HV1|].
  - apply Nat.eqb_eq in Hb, HV1. subst. simpl. f_equal. lia.
  - apply Nat.eqb_eq in Hb. subst.
    cbn [length Nat.sub skipn unravel numel fold_right source_index ravel].
    rewrite HV1.
    rewrite !Nat.mul_1_r, Nat.div_1_r, Nat.add_0_r.
    f_equal. apply Nat.mod_small. lia.
  - cbn [length Nat.sub skipn unravel numel fold_right source_index ravel].
    rewrite Hb.
    rewrite !Nat.mul_1_r, Nat.div_1_r, !Nat.add_0_r.
    f_equal.
    destruct (V =? 1) eqn:HV1.
    + apply Nat.eqb_eq in HV1. subst V.
      rewrite Nat.div_1_r. lia.
    + pose proof (Nat.div_mod_eq p V). lia.
Qed.

(** A well-formed value of the destination's own shape is written as it
    is. *)
Lemma expand_same_2 {A} (z : A) (d : Tensor A) (b V : nat) :
  shape d = [b; V] -> wf d -> expand z d [b; V] = Ok d.
Proof.
  intros Hs Hwf. unfold expand. rewrite Hs, expandable_same_2, numel_2.
  f_equal. destruct d as [sh dt]. unfold wf in Hwf.
  cbn [shape data] in *. subst sh. f_equal.
  rewrite numel_2 in Hwf.
  rewrite <- Hwf.
  transitivity (tabulate (length dt) (fun p => nth p dt z));
    [|apply tabulate_nth].
  apply tabulate_ext. intros p Hp.
  apply (expand_get_same_2 z (mkTensor [b; V] dt)); [reflexivity | lia].
Qed.

(** ** One iteration *)

Section Iteration.

Variable float32 : Type.
Variable zero : float32.
Variable score : Type.
Variable score0 : score.
Variable to_float32 : score -> float32.
Variable gtb : score -> score -> bool.
Variable layer : Type.
Variable W : Type.

Variable self : SequenceToSequence score layer W.
Variable tgt : Tensor Z.
Variable batch_size : nat.
Variable teacher_forcing : bool.

Local Abbreviation body := (loop_body zero score0 to_float32 gtb self tgt
    batch_size teacher_forcing).
Local Abbreviation run_loop := (loop zero score0 to_float32 gtb self tgt
    batch_size teacher_forcing).

(** The iteration, case by case: the decoder raises; the write raises;
    the selection of the next input raises; or all three go through. *)
Lemma loop_body_cases (i : nat) (s : loop_state float32 layer) (w : W) :
  body i s w =
  match Decoder_forward (decoder self) (target_input s)
          (hidden_layer s) (cell_layer s) w with
  | (Err e, w1) => (Err e, [EvDecode (target_input s) None], w1)
  | (Ok (d, h, c), w1) =>
      match setitem1 zero (output s) i (to_dtype to_float32 d) with
      | Err e => (Err e, [EvDecode (target_input s) (Some d)], w1)
      | Ok o =>
          match next_target_input score0 gtb tgt batch_size
                  teacher_forcing i d with
          | Err e =>
              (Err e, [EvDecode (target_input s) (Some d); EvWrite i d], w1)
          | Ok inp =>
              (Ok (mkLoopState o h c inp),
               [EvDecode (target_input s) (Some d); EvWrite i d;
                EvSelect i inp], w1)
          end
      end
  end.
Proof.
  unfold loop_body, bind, call_decoder, write_output, bind, lift, tell, ret.
  destruct (Decoder_forward _ _ _ _ _) as [[[[d h] c] | e] w1]; simpl;
    [|reflexivity].
  destruct (setitem1 _ _ _ _) as [o | e]; simpl; [|reflexivity].
  destruct (next_target_input _ _ _ _ _ _ _) as [inp | e]; reflexivity.
Qed.

Lemma loop_body_ok (i : nat) (s s' : loop_state float32 layer) (w w1 : W)
  (es : list (event score)) :
  body i s w = (Ok s', es, w1) ->
  exists d,
    Decoder_forward (decoder self) (target_input s)
      (hidden_layer s) (cell_layer s) w
    = (Ok (d, hidden_layer s', cell_layer s'), w1)
    /\ setitem1 zero (output s) i (to_dtype to_float32 d) = Ok (output s')
    /\ next_target_input score0 gtb tgt batch_size teacher_forcing i d
       = Ok (target_input s')
    /\ es = [EvDecode (target_input s) (Some d); EvWrite i d;
             EvSelect i (target_input s')].
Proof.
  rewrite loop_body_cases.
  destruct (Decoder_forward _ _ _ _ _) as [[[[d h] c] | e] w2] eqn:Hd;
    [|discriminate].
  destruct (setitem1 _ _ _ _) as [o | e] eqn:Hw; [|discriminate].
  destruct (next_target_input _ _ _ _ _ _ _) as [inp | e] eqn:Hn;
    [|discriminate].
  intros [= <- <- <-]. exists d. simpl. repeat split; assumption || reflexivity.
Qed.

Lemma loop_body_err (i : nat) (s : loop_state float32 layer) (w w1 : W)
  (e : error) (es : list (event score)) :
  body i s w = (Err e, es, w1) ->
  es = [EvDecode (target_input s) None]
  \/ exists d,
       es = [EvDecode (target_input s) (Some d)]
       \/ es = [EvDecode (target_input s) (Some d); EvWrite i d].
Proof.
  rewrite loop_body_cases.
  destruct (Decoder_forward _ _ _ _ _) as [[[[d h] c] | e0] w2].
  - destruct (setitem1 _ _ _ _) as [o | e1].
    + destruct (next_target_input _ _ _ _ _ _ _) as [inp | e2];
        [discriminate|].
      intros [= _ <- _]. right. exists d. auto.
    + intros [= _ <- _]. right. exists d. auto.
  - intros [= _ <- _]. auto.
Qed.

(** The loop, one step unfolded. *)
Lemma loop_cons (i : nat) (l : list nat) (s : loop_state float32 layer)
  (w : W) :
  run_loop (i :: l) s w =
  match body i s w with
  | (Ok s', es, w1) =>
      match run_loop l s' w1 with
      | (r, es', w2) => (r, es ++ es', w2)
      end
  | (Err e, es, w1) => (Err e, es, w1)
  end.
Proof. reflexivity. Qed.

(** ** The loop *)

Lemma trace_app_encoder (es es' : list (event score)) :
  encoder_calls (es ++ es') = encoder_calls es ++ encoder_calls es'.
Proof. apply flat_map_app. Qed.

Lemma trace_app_inputs (es es' : list (event score)) :
  decoder_inputs (es ++ es') = decoder_inputs es ++ decoder_inputs es'.
Proof. apply flat_map_app. Qed.

Lemma trace_app_outputs (es es' : list (event score)) :
  decoder_outputs (es ++ es') = decoder_outputs es ++ decoder_outputs es'.
Proof. apply flat_map_app. Qed.

Lemma trace_app_writes (es es' : list (event score)) :
  writes (es ++ es') = writes es ++ writes es'.
Proof. apply flat_map_app. Qed.

Lemma trace_app_selections (es es' : list (event score)) :
  selections (es ++ es') = selections es ++ selections es'.
Proof. apply flat_map_app. Qed.

(** Splits a run of [i :: l] into its first iteration and the rest. *)
Ltac first_iteration Hrun s' es1 w1 Hb :=
  rewrite loop_cons in Hrun;
  match type of Hrun with
  | context [body ?i ?s ?w] =>
      destruct (body i s w) as [[[s' | ?e] es1] w1] eqn:Hb
  end.

(** The loop never calls the encoder. *)
Lemma loop_no_encoder_call (l : list nat) :
  forall s w r es w',
    run_loop l s w = (r, es, w') -> encoder_calls es = [].
Proof.
  induction l as [|i l IH]; intros s w r es w' Hrun.
  - injection Hrun as _ <- _. reflexivity.
  - first_iteration Hrun s' es1 w1 Hb.
    + destruct (run_loop l s' w1) as [[r2 es2] w2] eqn:Hrest.
      injection Hrun as _ <- _.
      apply loop_body_ok in Hb as (d & _ & _ & _ & ->).
      rewrite trace_app_encoder, (IH _ _ _ _ _ Hrest). reflexivity.
    + injection Hrun as _ <- _.
      apply loop_body_err in Hb as [-> | (d & [-> | ->])]; reflexivity.
Qed.

Section Buffer.

Variables T V : nat.

(** A run that returns keeps the shape of the buffer and touches only
    the time steps it iterates over. *)
Lemma loop_frame (l : list nat) :
  forall s w out es w',
    run_loop l s w = (Ok out, es, w') ->
    shape (output s) = [batch_size; T; V] -> wf (output s) ->
    shape out = [batch_size; T; V] /\ wf out
    /\ forall q, ~ In ((q / V) mod T) l ->
                 nth q (data out) zero = nth q (data (output s)) zero.
Proof.
  induction l as [|i l IH]; intros s w out es w' Hrun Hs Hwf.
  - injection Hrun as <- _ _. auto.
  - first_iteration Hrun s' es1 w1 Hb; [|discriminate].
    destruct (run_loop l s' w1) as [[r2 es2] w2] eqn:Hrest.
    injection Hrun as -> _ _.
    apply loop_body_ok in Hb as (d & _ & Hw & _ & _).
    destruct (setitem1_shape _ _ _ _ _ _ _ _ _ Hs Hw) as [Hs' Hwf'].
    destruct (IH _ _ _ _ _ Hrest Hs' Hwf') as (Hso & Hwfo & Hfr).
    repeat split; try assumption.
    intros q Hq. rewrite Hfr by (intros Hin; apply Hq; now right).
    apply (setitem1_frame _ _ _ _ _ _ _ _ _ Hs Hwf Hw).
    intros Heq. apply Hq. now left.
Qed.

(** A run that returns writes once per index, in the order of the
    indices, what the decoder returned at that iteration; each written
    slice is still in the buffer at the end. *)
Lemma loop_writes (l : list nat) :
  forall s w out es w',
    run_loop l s w = (Ok out, es, w') ->
    NoDup l ->
    shape (output s) = [batch_size; T; V] -> wf (output s) ->
    map fst (writes es) = l
    /\ map snd (writes es) = decoder_outputs es
    /\ map fst (selections es) = l
    /\ forall i d, In (i, d) (writes es) ->
                   select1 zero out i = expand zero (to_dtype to_float32 d)
                       [batch_size; V].
Proof.
  induction l as [|i l IH]; intros s w out es w' Hrun Hnd Hs Hwf.
  - injection Hrun as _ <- _. simpl. repeat split; auto. intros i d [].
  - first_iteration Hrun s' es1 w1 Hb; [|discriminate].
    destruct (run_loop l s' w1) as [[r2 es2] w2] eqn:Hrest.
    injection Hrun as -> <- _.
    apply loop_body_ok in Hb as (d & _ & Hw & _ & ->).
    destruct (setitem1_shape _ _ _ _ _ _ _ _ _ Hs Hw) as [Hs' Hwf'].
    inversion Hnd as [|? ? Hnotin Hnd']; subst.
    destruct (IH _ _ _ _ _ Hrest Hnd' Hs' Hwf') as (Hi & Ho & Hsel & Hsl).
    destruct (loop_frame _ _ _ _ _ _ Hrest Hs' Hwf') as (Hso & _ & Hfr).
    rewrite trace_app_writes, trace_app_outputs, trace_app_selections.
    simpl. rewrite Hi, Ho, Hsel. repeat split; try reflexivity.
    intros j dj [[= <- <-] | Hin].
    + rewrite <- (setitem1_slice _ _ _ _ _ _ _ _ _ Hs Hw).
      apply (select1_agree _ _ batch_size T V); try assumption.
      intros q Hq. apply Hfr. now rewrite Hq.
    + now apply Hsl.
Qed.

End Buffer.

(** Every input selected inside the loop comes from the conditional
    expression at the end of the iteration that wrote the same index. *)
Lemma loop_selections (l : list nat) :
  forall s w r es w' j i inp,
    run_loop l s w = (r, es, w') ->
    nth_error (selections es) j = Some (i, inp) ->
    nth_error l j = Some i
    /\ exists d,
         nth_error (writes es) j = Some (i, d)
         /\ next_target_input score0 gtb tgt batch_size teacher_forcing i d
            = Ok inp.
Proof.
  induction l as [|i0 l IH]; intros s w r es w' j i inp Hrun Hj.
  - injection Hrun as _ <- _. destruct j; discriminate.
  - first_iteration Hrun s' es1 w1 Hb.
    + destruct (run_loop l s' w1) as [[r2 es2] w2] eqn:Hrest.
      injection Hrun as _ <- _.
      apply loop_body_ok in Hb as (d & _ & _ & Hn & ->).
      rewrite trace_app_selections in Hj. rewrite trace_app_writes.
      simpl in Hj |- *. destruct j as [|j].
      * injection Hj as <- <-. split; [reflexivity|].
        exists d. auto.
      * simpl in Hj |- *. exact (IH _ _ _ _ _ _ _ _ Hrest Hj).
    + injection Hrun as _ <- _.
      apply loop_body_err in Hb as [-> | (d & [-> | ->])];
        destruct j; discriminate.
Qed.

(** The decoder is first fed the input the loop starts with, and then,
    call after call, the inputs selected by the iterations before. *)
Lemma loop_decoder_inputs (l : list nat) :
  forall s w r es w',
    run_loop l s w = (r, es, w') ->
    (forall inp, nth_error (decoder_inputs es) 0 = Some inp ->
                 inp = target_input s)
    /\ (forall j inp, nth_error (decoder_inputs es) (S j) = Some inp ->
                      exists i, nth_error (selections es) j = Some (i, inp)).
Proof.
  induction l as [|i0 l IH]; intros s w r es w' Hrun.
  - injection Hrun as _ <- _. split; intros; discriminate.
  - first_iteration Hrun s' es1 w1 Hb.
    + destruct (run_loop l s' w1) as [[r2 es2] w2] eqn:Hrest.
      injection Hrun as _ <- _.
      apply loop_body_ok in Hb as (d & _ & _ & _ & ->).
      destruct (IH _ _ _ _ _ Hrest) as [IH0 IHS].
      rewrite trace_app_inputs, trace_app_selections. simpl. split.
      * now intros inp [= <-].
      * intros [|j] inp Hj.
        -- exists i0. simpl. now rewrite (IH0 _ Hj).
        -- simpl. now apply IHS.
    + injection Hrun as _ <- _.
      apply loop_body_err in Hb as [-> | (d & [-> | ->])];
        (split; [now intros inp [= <-] | intros [|j] inp; discriminate]).
Qed.

(** The decoder is called once per iteration of a run that returns. *)
Lemma loop_decoder_calls (l : list nat) :
  forall s w out es w',
    run_loop l s w = (Ok out, es, w') ->
    length (decoder_inputs es) = length l.
Proof.
  induction l as [|i l IH]; intros s w out es w' Hrun.
  - injection Hrun as _ <- _. reflexivity.
  - first_iteration Hrun s' es1 w1 Hb; [|discriminate].
    destruct (run_loop l s' w1) as [[r2 es2] w2] eqn:Hrest.
    injection Hrun as -> <- _.
    apply loop_body_ok in Hb as (d & _ & _ & _ & ->).
    rewrite trace_app_inputs, length_app, (IH _ _ _ _ _ Hrest).
    reflexivity.
Qed.

(** With collaborators that answer alike in every state, the result and
    the trace of the loop do not depend on the state it starts in. *)
Lemma loop_body_deterministic (i : nat) (s : loop_state float32 layer)
  (w1 w2 : W) :
  deterministic_decoder (decoder self) ->
  fst (body i s w1) = fst (body i s w2).
Proof.
  intros Hdet. rewrite !loop_body_cases.
  specialize (Hdet (target_input s) (hidden_layer s) (cell_layer s) w1 w2).
  destruct (Decoder_forward _ _ _ _ w1) as [r1 w1'].
  destruct (Decoder_forward _ _ _ _ w2) as [r2 w2'].
  simpl in Hdet. subst r2.
  destruct r1 as [[[d h] c] | e]; [|reflexivity].
  destruct (setitem1 _ _ _ _) as [o | e]; [|reflexivity].
  destruct (next_target_input _ _ _ _ _ _ _) as [inp | e]; reflexivity.
Qed.

Lemma loop_deterministic (l : list nat) :
  deterministic_decoder (decoder self) ->
  forall s w1 w2, fst (run_loop l s w1) = fst (run_loop l s w2).
Proof.
  intros Hdet. induction l as [|i l IH]; intros s w1 w2.
  - reflexivity.
  - rewrite !loop_cons.
    pose proof (loop_body_deterministic i s w1 w2 Hdet) as Hb.
    destruct (body i s w1) as [[r1 es1] w1'].
    destruct (body i s w2) as [[r2 es2] w2'].
    simpl in Hb. injection Hb as <- <-.
    destruct r1 as [s' | e]; [|reflexivity].
    specialize (IH s' w1' w2').
    destruct (run_loop l s' w1') as [[r3 es3] w3].
    destruct (run_loop l s' w2') as [[r4 es4] w4].
    simpl in IH. injection IH as <- <-. reflexivity.
Qed.

(** Whatever the run does, it writes only at indices it iterates over. *)
Lemma loop_write_indices (l : list nat) :
  forall s w r es w' i d,
    run_loop l s w = (r, es, w') -> In (i, d) (writes es) -> In i l.
Proof.
  induction l as [|i0 l IH]; intros s w r es w' i d Hrun Hin.
  - injection Hrun as _ <- _. destruct Hin.
  - first_iteration Hrun s' es1 w1 Hb.
    + destruct (run_loop l s' w1) as [[r2 es2] w2] eqn:Hrest.
      injection Hrun as _ <- _.
      apply loop_body_ok in Hb as (d0 & _ & _ & _ & ->).
      rewrite trace_app_writes in Hin. simpl in Hin.
      destruct Hin as [[= <- _] | Hin]; [now left | right].
      exact (IH _ _ _ _ _ _ _ Hrest Hin).
    + injection Hrun as _ <- _.
      apply loop_body_err in Hb as [-> | (d0 & [-> | ->])]; simpl in Hin.
      * destruct Hin.
      * destruct Hin.
      * destruct Hin as [[= <- _] | []]. now left.
Qed.

(** *** When the loop returns *)


Lemma target_column_2d (bt T j : nat) :
  shape tgt = [bt; T] -> j < T ->
  target_column tgt batch_size j
  = if batch_size =? bt
    then Ok (mkTensor [batch_size; 1]
               (tabulate bt (fun p => nth (p * T + j) (data tgt) 0%Z)))
    else Err ShapeMismatchError.
Proof.
  intros Hs Hj. unfold target_column, select1. rewrite Hs.
  apply Nat.ltb_lt in Hj. rewrite Hj.
  unfold reshape. cbn [shape data numel fold_right].
  rewrite !Nat.mul_1_r.
  destruct (batch_size =? bt); [|reflexivity].
  do 2 f_equal. apply tabulate_ext. intros p Hp.
  f_equal. rewrite Nat.div_1_r, Nat.mul_1_r. simpl. lia.
Qed.

Lemma target_column_wf (b : nat) (f : nat -> Z) :
  wf (mkTensor [b; 1] (tabulate b f)).
Proof. unfold wf. simpl. rewrite length_tabulate. lia. Qed.

Lemma argmax1_2d (b V : nat) (d : Tensor score) :
  shape d = [b; V] -> 1 <= V ->
  exists inp, argmax1 score0 gtb d = Ok inp /\ wf inp /\ shape inp = [b].
Proof.
  intros Hs HV. unfold argmax1. rewrite Hs.
  destruct (V =? 0) eqn:HV0; [apply Nat.eqb_eq in HV0; lia|].
  eexists. split; [reflexivity|]. split; [|reflexivity].
  unfold wf. simpl. now rewrite length_tabulate.
Qed.

Section Returns.

Variables T V : nat.

Hypothesis decoder_answers :
  forall inp h c w,
    fed_input batch_size teacher_forcing inp ->
    exists d h' c' w',
      Decoder_forward (decoder self) inp h c w = (Ok (d, h', c'), w')
      /\ shape d = [batch_size; V].

Hypothesis target_shape : shape tgt = [batch_size; T].

Hypothesis vocabulary_not_empty : teacher_forcing = false -> 1 <= V.

Lemma next_target_input_returns (i : nat) (d : Tensor score) :
  i < T -> shape d = [batch_size; V] ->
  exists inp,
    next_target_input score0 gtb tgt batch_size teacher_forcing i d = Ok inp
    /\ fed_input batch_size teacher_forcing inp.
Proof.
  intros Hi Hd. unfold next_target_input, fed_input.
  destruct teacher_forcing eqn:Htf.
  - rewrite (target_column_2d batch_size T i target_shape Hi).
    rewrite Nat.eqb_refl. eexists. split; [reflexivity|].
    split; [apply target_column_wf | now left].
  - destruct (argmax1_2d batch_size V d Hd (vocabulary_not_empty eq_refl))
      as (inp & -> & Hwf & Hs).
    exists inp. split; [reflexivity|]. split; [exact Hwf | right; auto].
Qed.

Lemma loop_returns (l : list nat) :
  Forall (fun i => i < T) l ->
  forall s w,
    shape (output s) = [batch_size; T; V] ->
    fed_input batch_size teacher_forcing (target_input s) ->
    exists out es w', run_loop l s w = (Ok out, es, w').
Proof.
  induction l as [|i l IH]; intros Hl s w Hs Hin.
  - exists (output s), [], w. reflexivity.
  - inversion Hl as [|? ? Hi Hl']; subst.
    rewrite loop_cons, loop_body_cases.
    destruct (decoder_answers _ (hidden_layer s) (cell_layer s) w Hin)
      as (d & h' & c' & w1 & -> & Hd).
    destruct (setitem1 zero (output s) i (to_dtype to_float32 d)) as [o | e]
        eqn:Hw.
    + destruct (next_target_input_returns i d Hi Hd) as (inp & -> & Hfed).
      destruct (setitem1_shape _ _ _ _ _ _ _ _ _ Hs Hw) as [Hs' _].
      destruct (IH Hl' (mkLoopState o h' c' inp) w1 Hs' Hfed)
        as (out & es & w' & ->).
      eauto.
    + exfalso. revert Hw. unfold setitem1. rewrite Hs.
      cbn [to_dtype shape]. rewrite Hd.
      apply Nat.ltb_lt in Hi. rewrite Hi, expandable_same_2.
      discriminate.
Qed.

End Returns.

(** *** What the loop asks of the decoder *)

(** An iteration starts with the decoder call on the current input,
    layers and state, and moves the collaborators' state by that call
    alone. *)
Lemma loop_body_call (i : nat) (s : loop_state float32 layer) (w : W) :
  (exists rest,
     trace_of (body i s w)
     = EvDecode (target_input s)
         (returned_distribution
            (fst (Decoder_forward (decoder self) (target_input s)
                    (hidden_layer s) (cell_layer s) w))) :: rest)
  /\ state_of (body i s w)
     = snd (Decoder_forward (decoder self) (target_input s)
              (hidden_layer s) (cell_layer s) w).
Proof.
  rewrite loop_body_cases.
  destruct (Decoder_forward _ _ _ _ _) as [[[[d h] c] | e] w1];
    [|split; [eexists|]; reflexivity].
  destruct (setitem1 _ _ _ _) as [o | e];
    [|split; [eexists|]; reflexivity].
  destruct (next_target_input _ _ _ _ _ _ _) as [inp | e];
    split; try eexists; reflexivity.
Qed.

(** The loop moves the collaborators' state by decoder calls only. *)
Lemma loop_decoder_steps (l : list nat) :
  forall s w, decoder_steps (decoder self) w (state_of (run_loop l s w)).
Proof.
  induction l as [|i l IH]; intros s w.
  - apply decoder_steps_none.
  - rewrite loop_cons.
    destruct (loop_body_call i s w) as [_ Hst].
    apply decoder_steps_call with (inp := target_input s)
      (h := hidden_layer s) (c := cell_layer s).
    rewrite <- Hst.
    destruct (body i s w) as [[[s' | e] es1] w1]; unfold state_of; simpl.
    + specialize (IH s' w1). unfold state_of in IH.
      now destruct (run_loop l s' w1) as [[r2 es2] w2].
    + apply decoder_steps_none.
Qed.

(** A loop that iterates starts with the decoder call on the input,
    layers and state it is entered with. *)
Lemma loop_first_event (i : nat) (l : list nat)
  (s : loop_state float32 layer) (w : W) :
  exists rest,
    trace_of (run_loop (i :: l) s w)
    = EvDecode (target_input s)
        (returned_distribution
           (fst (Decoder_forward (decoder self) (target_input s)
                   (hidden_layer s) (cell_layer s) w))) :: rest.
Proof.
  rewrite loop_cons.
  destruct (loop_body_call i s w) as [[rest Htr] _].
  unfold trace_of in *.
  destruct (body i s w) as [[[s' | e] es1] w1]; simpl in Htr; subst es1.
  - destruct (run_loop l s' w1) as [[r2 es2] w2]. simpl. eauto.
  - simpl. eauto.
Qed.

(** The distributions a returning loop obtained are those of the
    decoding chain started in the same input, layers and state. *)
Lemma loop_decoder_chain (l : list nat) :
  forall s w out es w',
    run_loop l s w = (Ok out, es, w') ->
    decoder_outputs es
    = decoder_chain score0 gtb self tgt batch_size teacher_forcing l
        (target_input s) (hidden_layer s) (cell_layer s) w.
Proof.
  induction l as [|i l IH]; intros s w out es w' Hrun.
  - injection Hrun as _ <- _. reflexivity.
  - first_iteration Hrun s' es1 w1 Hb; [|discriminate].
    destruct (run_loop l s' w1) as [[r2 es2] w2] eqn:Hrest.
    injection Hrun as -> <- _.
    apply loop_body_ok in Hb as (d & Hd & _ & Hn & ->).
    rewrite trace_app_outputs. simpl. rewrite Hd, Hn.
    f_equal. exact (IH _ _ _ _ _ Hrest).
Qed.

End Iteration.

(** ** The whole call *)

Section Forward.

Variable float32 : Type.
Variable zero : float32.
Variable score : Type.
Variable score0 : score.
Variable to_float32 : score -> float32.
Variable gtb : score -> score -> bool.
Variable layer : Type.
Variable W : Type.

Local Abbreviation fwd := (forward zero score0 to_float32 gtb).

(** [forward], case by case: a shape index raises; the encoder raises;
    the first target column raises; or the loop is entered. *)
Lemma forward_cases (self : SequenceToSequence score layer W)
  (src tgt : Tensor Z) (tf : bool) (w : W) :
  fwd self src tgt tf w =
  match shape_at src 0 with
  | Err e => (Err e, [], w)
  | Ok b =>
      match shape_at tgt 1 with
      | Err e => (Err e, [], w)
      | Ok T =>
          match encoder self src w with
          | (Err e, w1) => (Err e, [EvEncode src], w1)
          | (Ok (h, c), w1) =>
              match target_column tgt b 0 with
              | Err e => (Err e, [EvEncode src], w1)
              | Ok inp0 =>
                  match loop zero score0 to_float32 gtb self tgt b tf (range1 T)
                          (mkLoopState
                             (zeros zero
                                [b; T; fc_out_out_features (decoder self)])
                             h c inp0) w1 with
                  | (r, es, w2) => (r, EvEncode src :: es, w2)
                  end
              end
          end
      end
  end.
Proof.
  unfold forward, bind, lift, call_encoder.
  destruct (shape_at src 0) as [b | e]; [|reflexivity].
  destruct (shape_at tgt 1) as [T | e]; [|reflexivity].
  destruct (encoder self src w) as [[[h c] | e] w1]; [|reflexivity].
  simpl.
  destruct (target_column tgt b 0) as [inp0 | e]; [|reflexivity].
  simpl.
  destruct (loop _ _ _ _ _ _ _ _ _ _ _) as [[r es] w2]. reflexivity.
Qed.

Lemma range1_bound (T : nat) : Forall (fun i => i < T) (range1 T).
Proof.
  apply Forall_forall. intros i Hi. apply in_seq in Hi. lia.
Qed.

Lemma range1_positive (T i : nat) : In i (range1 T) -> 1 <= i.
Proof. intros Hi. apply in_seq in Hi. lia. Qed.

Lemma zeros_wf (s : list nat) : wf (zeros zero s).
Proof. unfold wf, zeros. simpl. apply repeat_length. Qed.

(** C1 (batch-size mismatch).  When the source and the target disagree
    on the batch size, [forward] raises: it returns no buffer, no
    distribution is written into the buffer and the decoder is never
    called.  When moreover the target has at least one column and the
    encoder returns, what is raised is the shape mismatch of
    [reshape(shape=(batch_size, 1))]. *)
Theorem forward_batch_mismatch (self : SequenceToSequence score layer W)
  (src tgt : Tensor Z) (tf : bool) (w : W) (bs n bt T : nat) :
  shape src = [bs; n] -> shape tgt = [bt; T] -> bs <> bt ->
  is_ok (result_of (fwd self src tgt tf w)) = false
  /\ writes (trace_of (fwd self src tgt tf w)) = []
  /\ decoder_inputs (trace_of (fwd self src tgt tf w)) = []
  /\ (1 <= T -> is_ok (fst (encoder self src w)) = true ->
      result_of (fwd self src tgt tf w) = Err ShapeMismatchError).
Proof.
  intros Hsrc Htgt Hne. rewrite forward_cases.
  unfold shape_at. rewrite Hsrc, Htgt. simpl nth_error. cbv iota.
  destruct (encoder self src w) as [[[h c] | e] w1].
  - destruct T as [|T'].
    + unfold target_column, select1. rewrite Htgt. simpl.
      repeat split; try reflexivity. intros HT. lia.
    + rewrite (target_column_2d tgt bs bt (S T') 0 Htgt) by lia.
      apply Nat.eqb_neq in Hne. rewrite Hne.
      repeat split; reflexivity.
  - simpl. repeat split; try reflexivity. intros _ [=].
Qed.

Lemma target_column_needs_column (tgt : Tensor Z) (b T : nat)
  (inp : Tensor Z) :
  target_column tgt b 0 = Ok inp -> shape_at tgt 1 = Ok T -> 1 <= T.
Proof.
  unfold target_column, select1, shape_at.
  destruct (shape tgt) as [|d0 [|d1 rest]]; try discriminate.
  simpl nth_error. destruct (0 <? d1) eqn:Hd; [|discriminate].
  intros _ [= <-]. now apply Nat.ltb_lt in Hd.
Qed.

(** C3 (shape of the result).  With matching batch sizes, a target of at
    least one column, an encoder that returns and a decoder that answers
    a (batch_size, out_features) distribution to the inputs the loop
    feeds it, [forward] returns a well-formed buffer of shape
    (batch_size, target_length, out_features): the batch size read from
    the source, the length from the target, the width from the decoder's
    [fc_out.out_features].  Without teacher forcing the width must not
    be 0, since [argmax(1)] raises on an empty dimension. *)
Theorem forward_returns_shape (self : SequenceToSequence score layer W)
  (src tgt : Tensor Z) (tf : bool) (w : W) (b n T : nat) :
  shape src = [b; n] -> shape tgt = [b; T] -> 1 <= T ->
  is_ok (fst (encoder self src w)) = true ->
  (forall inp h c w0,
      fed_input b tf inp ->
      exists d h' c' w',
        Decoder_forward (decoder self) inp h c w0 = (Ok (d, h', c'), w')
        /\ shape d = [b; fc_out_out_features (decoder self)]) ->
  (tf = false -> 1 <= fc_out_out_features (decoder self)) ->
  exists out,
    result_of (fwd self src tgt tf w) = Ok out
    /\ shape out = [b; T; fc_out_out_features (decoder self)]
    /\ wf out.
Proof.
  intros Hsrc Htgt HT Henc Hdec HV. rewrite forward_cases.
  unfold shape_at. rewrite Hsrc, Htgt. simpl nth_error. cbv iota.
  destruct (encoder self src w) as [[[h c] | e] w1]; [|discriminate].
  rewrite (target_column_2d tgt b b T 0 Htgt) by lia.
  rewrite Nat.eqb_refl.
  set (s0 := mkLoopState _ h c _).
  destruct (loop_returns float32 zero score score0 to_float32 gtb layer W self
      tgt b tf T
              (fc_out_out_features (decoder self)) Hdec Htgt HV
              (range1 T) (range1_bound T) s0 w1)
    as (out & es & w' & Hrun);
    [reflexivity | split; [apply target_column_wf | now left] |].
  rewrite Hrun. exists out. split; [reflexivity|].
  destruct (loop_frame float32 zero score score0 to_float32 gtb layer W self
      tgt b tf T
              (fc_out_out_features (decoder self)) (range1 T)
              s0 w1 out es w' Hrun eq_refl (zeros_wf _))
    as (Hs & Hwf & _).
  auto.
Qed.

(** C4 (time index 0 stays zero).  No write of a run carries the index
    0, and in the buffer a run returns the slice at time 0 is the zero
    slice of shape (batch_size, out_features). *)
Theorem forward_first_position_zero
  (self : SequenceToSequence score layer W)
  (src tgt : Tensor Z) (tf : bool) (w : W) :
  (forall i d, In (i, d) (writes (trace_of (fwd self src tgt tf w))) ->
               1 <= i)
  /\ forall out,
       result_of (fwd self src tgt tf w) = Ok out ->
       exists b T,
         shape_at src 0 = Ok b /\ shape_at tgt 1 = Ok T
         /\ shape out = [b; T; fc_out_out_features (decoder self)]
         /\ select1 zero out 0
            = Ok (zeros zero [b; fc_out_out_features (decoder self)]).
Proof.
  rewrite forward_cases.
  destruct (shape_at src 0) as [b | e];
    [|split; [intros i d [] | discriminate]].
  destruct (shape_at tgt 1) as [T | e] eqn:HT;
    [|split; [intros i d [] | discriminate]].
  destruct (encoder self src w) as [[[h c] | e] w1];
    [|split; [intros i d [] | discriminate]].
  destruct (target_column tgt b 0) as [inp0 | e] eqn:Hcol;
    [|split; [intros i d [] | discriminate]].
  set (V := fc_out_out_features (decoder self)).
  set (s0 := mkLoopState _ h c inp0).
  destruct (loop _ _ _ _ _ _ _ _ _ s0 w1) as [[r es] w2] eqn:Hrun.
  unfold result_of, trace_of. simpl fst. simpl snd. split.
  - intros i d Hin. apply (range1_positive T).
    exact (loop_write_indices float32 zero score score0 to_float32 gtb layer W
        self tgt b tf
             (range1 T) s0 w1 r es w2 i d Hrun Hin).
  - intros out ->. exists b, T.
    destruct (loop_frame float32 zero score score0 to_float32 gtb layer W self
        tgt b tf T V
                (range1 T) s0 w1 out es w2 Hrun eq_refl (zeros_wf _))
      as (Hs & _ & Hfr).
    repeat split; try assumption.
    apply (select1_zeros float32 zero b T V out Hs).
    + exact (target_column_needs_column tgt b T inp0 Hcol HT).
    + intros q Hq. rewrite Hfr.
      * apply nth_repeat_any.
      * rewrite Hq. intros Hin. apply range1_positive in Hin. lia.
Qed.

(** C5 (target of length 1).  With a one-column target, matching batch
    sizes and an encoder that returns, [forward] returns a buffer of
    shape (batch_size, 1, out_features) whose batch_size * out_features
    elements are all zero.  The trace is the encoder call alone: the
    decoder is not called, nothing is written, and the collaborators are
    left in the state the encoder left them. *)
Theorem forward_length_one (self : SequenceToSequence score layer W)
  (src tgt : Tensor Z) (tf : bool) (w : W) (b n : nat) :
  shape src = [b; n] -> shape tgt = [b; 1] ->
  is_ok (fst (encoder self src w)) = true ->
  exists out,
    result_of (fwd self src tgt tf w) = Ok out
    /\ shape out = [b; 1; fc_out_out_features (decoder self)]
    /\ length (data out) = b * fc_out_out_features (decoder self)
    /\ (forall p, p < b * fc_out_out_features (decoder self) ->
                  nth_error (data out) p = Some zero)
    /\ trace_of (fwd self src tgt tf w) = [EvEncode src]
    /\ decoder_inputs (trace_of (fwd self src tgt tf w)) = []
    /\ writes (trace_of (fwd self src tgt tf w)) = []
    /\ state_of (fwd self src tgt tf w) = snd (encoder self src w).
Proof.
  intros Hsrc Htgt Henc. rewrite forward_cases.
  unfold shape_at. rewrite Hsrc, Htgt. simpl nth_error. cbv iota.
  destruct (encoder self src w) as [[[h c] | e] w1]; [|discriminate].
  rewrite (target_column_2d tgt b b 1 0 Htgt) by lia.
  rewrite Nat.eqb_refl. simpl.
  eexists. split; [reflexivity|].
  assert (Hn : b * (1 * (fc_out_out_features (decoder self) * 1))
               = b * fc_out_out_features (decoder self)) by lia.
  unfold zeros. cbn [shape data numel fold_right]. rewrite Hn.
  repeat split.
  - apply repeat_length.
  - intros p Hp. now apply nth_error_repeat.
Qed.

(** C6 (one encoder call).  For a source with a batch dimension and a
    target with a length dimension, [forward] applies the encoder to the
    source once, first, in the state the collaborators are in when the
    call is made: the trace starts with the encoder call and holds no
    other, whatever the target length and however the call ends; what
    the encoder raises, [forward] raises; the state the encoder leaves
    is moved on by decoder calls only; and when the loop iterates, its
    first decoder call is made on the start column in the layers and the
    state the encoder returned.  The loop itself never calls the
    encoder. *)
Theorem forward_encoder_called_once
  (self : SequenceToSequence score layer W)
  (src tgt : Tensor Z) (tf : bool) (w : W)
  (b bt T : nat) (srest trest : list nat) :
  shape src = b :: srest -> shape tgt = bt :: T :: trest ->
  encoder_calls (trace_of (fwd self src tgt tf w)) = [src]
  /\ (exists rest,
        trace_of (fwd self src tgt tf w) = EvEncode src :: rest
        /\ encoder_calls rest = [])
  /\ (forall l s w0,
        encoder_calls
          (trace_of (loop zero score0 to_float32 gtb self tgt b tf l s w0))
        = [])
  /\ (forall e, fst (encoder self src w) = Err e ->
                fwd self src tgt tf w
                = (Err e, [EvEncode src], snd (encoder self src w)))
  /\ decoder_steps (decoder self) (snd (encoder self src w))
       (state_of (fwd self src tgt tf w))
  /\ (forall h c inp0,
        fst (encoder self src w) = Ok (h, c) ->
        target_column tgt b 0 = Ok inp0 -> 2 <= T ->
        nth_error (trace_of (fwd self src tgt tf w)) 1
        = Some (EvDecode inp0
                  (returned_distribution
                     (fst (Decoder_forward (decoder self) inp0 h c
                             (snd (encoder self src w))))))).
Proof.
  intros Hsrc Htgt.
  assert (Hloop : forall l s w0,
             encoder_calls
               (trace_of (loop zero score0 to_float32 gtb self tgt b tf
                            l s w0)) = []).
  { intros l s w0.
    destruct (loop zero score0 to_float32 gtb self tgt b tf l s w0)
      as [[r es] w'] eqn:Hrun.
    exact (loop_no_encoder_call float32 zero score score0 to_float32 gtb
             layer W self tgt b tf l s w0 r es w' Hrun). }
  rewrite forward_cases. unfold shape_at. rewrite Hsrc, Htgt.
  simpl nth_error. cbv iota.
  destruct (encoder self src w) as [[[h c] | e] w1]; simpl fst; simpl snd.
  - destruct (target_column tgt b 0) as [inp0 | e] eqn:Hcol.
    + set (s0 := mkLoopState _ h c inp0).
      pose proof (Hloop (range1 T) s0 w1) as Hno.
      pose proof (loop_decoder_steps float32 zero score score0 to_float32
                    gtb layer W self tgt b tf (range1 T) s0 w1) as Hst.
      assert (Hfirst : 2 <= T ->
                exists rest,
                  trace_of (loop zero score0 to_float32 gtb self tgt b tf
                              (range1 T) s0 w1)
                  = EvDecode inp0
                      (returned_distribution
                         (fst (Decoder_forward (decoder self) inp0 h c w1)))
                    :: rest).
      { intros HT. unfold range1.
        destruct T as [|[|T']]; try lia. simpl seq.
        exact (loop_first_event float32 zero score score0 to_float32 gtb
                 layer W self tgt b tf 1 (seq 2 T') s0 w1). }
      destruct (loop _ _ _ _ _ _ _ _ _ s0 w1) as [[r es] w2].
      unfold trace_of, state_of in *. simpl fst in *. simpl snd in *.
      repeat split.
      * simpl. now rewrite Hno.
      * exists es. split; [reflexivity | exact Hno].
      * exact Hloop.
      * intros e [=].
      * exact Hst.
      * intros h' c' inp0' [= <- <-] [= <-] HT.
        destruct (Hfirst HT) as [rest ->]. reflexivity.
    + repeat split; try reflexivity.
      * exists []. split; reflexivity.
      * exact Hloop.
      * intros e0 [=].
      * apply decoder_steps_none.
      * intros h' c' inp0' _ [=].
  - repeat split; try reflexivity.
    + exists []. split; reflexivity.
    + exact Hloop.
    + now intros e0 [= <-].
    + apply decoder_steps_none.
    + intros h' c' inp0' [=].
Qed.

Lemma range1_nth (T j i : nat) :
  nth_error (range1 T) j = Some i -> i = S j.
Proof.
  intros H. unfold range1 in H.
  assert (Hj : j < length (seq 1 (T - 1)))
    by (apply nth_error_Some; congruence).
  rewrite length_seq in Hj.
  apply (nth_error_nth _ _ 0) in H. rewrite seq_nth in H by assumption.
  lia.
Qed.


(** C8 (teacher forcing is deterministic).  With an encoder and a
    decoder whose answers do not depend on their hidden state, two calls
    with [teacher_forcing=True] on the same source and target return the
    same result and leave the same trace, in whatever states the
    collaborators are when the calls are made. *)
Theorem forward_teacher_forcing_deterministic
  (self : SequenceToSequence score layer W)
  (src tgt : Tensor Z) (w1 w2 : W) :
  deterministic_encoder (encoder self) ->
  deterministic_decoder (decoder self) ->
  result_of (fwd self src tgt true w1) = result_of (fwd self src tgt true w2)
  /\ trace_of (fwd self src tgt true w1)
     = trace_of (fwd self src tgt true w2).
Proof.
  intros Henc Hdec. rewrite !forward_cases.
  destruct (shape_at src 0) as [b | e]; [|split; reflexivity].
  destruct (shape_at tgt 1) as [T | e]; [|split; reflexivity].
  specialize (Henc src w1 w2).
  destruct (encoder self src w1) as [r1 w1'].
  destruct (encoder self src w2) as [r2 w2'].
  simpl in Henc. subst r2.
  destruct r1 as [[h c] | e]; [|split; reflexivity].
  destruct (target_column tgt b 0) as [inp0 | e]; [|split; reflexivity].
  set (s0 := mkLoopState _ h c inp0).
  pose proof (loop_deterministic float32 zero score score0 to_float32 gtb layer
      W self tgt b true
                (range1 T) Hdec s0 w1' w2') as Hloop.
  destruct (loop _ _ _ _ _ _ _ _ _ s0 w1') as [[ra esa] wa].
  destruct (loop _ _ _ _ _ _ _ _ _ s0 w2') as [[rb esb] wb].
  simpl in Hloop. injection Hloop as <- <-. split; reflexivity.
Qed.

(** C9 (writes, once each and in order).  In a run that returns, the
    writes carry the indices 1, 2, ..., target_length - 1, each once and
    in this order.  What is written at the successive indices is the
    decoding chain: the decoder's successive answers, starting from the
    start column in the layers and the state the encoder returned.  At
    the end the slice of the buffer at a written index is the written
    distribution, converted to the element type of the buffer and
    broadcast to (batch_size, out_features): the converted distribution
    itself when it is well formed with that shape. *)
Theorem forward_writes_once_in_order
  (self : SequenceToSequence score layer W)
  (src tgt : Tensor Z) (tf : bool) (w : W) (b T : nat)
  (out : Tensor float32) :
  shape_at src 0 = Ok b -> shape_at tgt 1 = Ok T -> 2 <= T ->
  result_of (fwd self src tgt tf w) = Ok out ->
  map fst (writes (trace_of (fwd self src tgt tf w))) = seq 1 (T - 1)
  /\ map snd (writes (trace_of (fwd self src tgt tf w)))
     = decoder_outputs (trace_of (fwd self src tgt tf w))
  /\ length (decoder_outputs (trace_of (fwd self src tgt tf w))) = T - 1
  /\ (exists h c inp0,
        fst (encoder self src w) = Ok (h, c)
        /\ target_column tgt b 0 = Ok inp0
        /\ map snd (writes (trace_of (fwd self src tgt tf w)))
           = decoder_chain score0 gtb self tgt b tf (range1 T) inp0 h c
               (snd (encoder self src w)))
  /\ forall i d,
       In (i, d) (writes (trace_of (fwd self src tgt tf w))) ->
       select1 zero out i
       = expand zero (to_dtype to_float32 d)
           [b; fc_out_out_features (decoder self)]
       /\ (shape d = [b; fc_out_out_features (decoder self)] -> wf d ->
           select1 zero out i = Ok (to_dtype to_float32 d)).
Proof.
  intros Hb HT _. rewrite forward_cases, Hb, HT.
  destruct (encoder self src w) as [[[h c] | e] w1]; [|discriminate].
  destruct (target_column tgt b 0) as [inp0 | e]; [|discriminate].
  set (V := fc_out_out_features (decoder self)).
  set (s0 := mkLoopState _ h c inp0).
  destruct (loop _ _ _ _ _ _ _ _ _ s0 w1) as [[r es] w2] eqn:Hrun.
  unfold result_of, trace_of. simpl fst. simpl snd. intros ->.
  change (writes (EvEncode src :: es)) with (writes es).
  change (decoder_outputs (EvEncode src :: es)) with (decoder_outputs es).
  destruct (loop_writes float32 zero score score0 to_float32 gtb layer W
              self tgt b tf T V
              (range1 T) s0 w1 out es w2 Hrun (seq_NoDup _ _)
              eq_refl (zeros_wf _))
    as (Hi & Ho & _ & Hsl).
  pose proof (loop_decoder_chain float32 zero score score0 to_float32 gtb
                layer W self tgt b tf (range1 T) s0 w1 out es w2 Hrun)
    as Hchain.
  unfold s0 in Hchain. cbn [target_input hidden_layer cell_layer] in Hchain.
  split; [exact Hi|]. split; [exact Ho|]. split.
  { rewrite <- Ho, length_map, <- (length_map fst), Hi. apply length_seq. }
  split.
  { exists h, c, inp0. repeat split. now rewrite Ho. }
  intros i d Hin. split; [now apply Hsl|].
  intros Hd Hwf. rewrite (Hsl i d Hin).
  apply expand_same_2; [exact Hd|].
  unfold wf in *. cbn [to_dtype shape data]. now rewrite length_map.
Qed.

(** C10 (default of the flag).  A call that leaves [teacher_forcing]
    out is the call with [teacher_forcing=True]. *)
Theorem forward_call_default (self : SequenceToSequence score layer W)
  (src tgt : Tensor Z) :
  forward_call zero score0 to_float32 gtb self src tgt None
  = forward_call zero score0 to_float32 gtb self src tgt (Some true)
  /\ forward_call zero score0 to_float32 gtb self src tgt None = fwd self src
      tgt true.
Proof. split; reflexivity. Qed.

End Forward.

(** ** The greedy branch *)

Section Greedy.

Variable float32 : Type.
Variable zero : float32.
Variable score : Type.
Variable score0 : score.
Variable to_float32 : score -> float32.
Variable gtb : score -> score -> bool.
Variable layer : Type.
Variable W : Type.

Local Abbreviation fwd := (forward zero score0 to_float32 gtb).

(** Without teacher forcing, the decoder call that follows [t] earlier
    calls receives [argmax(1)] of the distribution written at index [t],
    as [argmax] returns it. *)
Lemma forward_greedy_inputs (self : SequenceToSequence score layer W)
  (src tgt : Tensor Z) (w : W) (t : nat) (inp : Tensor Z) :
  1 <= t ->
  nth_error
    (decoder_inputs (trace_of (fwd self src tgt false w))) t
  = Some inp ->
  exists d,
    nth_error (writes (trace_of (fwd self src tgt false w)))
      (t - 1) = Some (t, d)
    /\ argmax1 score0 gtb d = Ok inp.
Proof.
  intros Ht. rewrite forward_cases.
  destruct (shape_at src 0) as [b | e]; [|destruct t; discriminate].
  destruct (shape_at tgt 1) as [T | e]; [|destruct t; discriminate].
  destruct (encoder self src w) as [[[h c] | e] w1];
    [|destruct t; discriminate].
  destruct (target_column tgt b 0) as [inp0 | e];
    [|destruct t; discriminate].
  set (s0 := mkLoopState _ h c inp0).
  destruct (loop _ _ _ _ _ _ _ _ _ s0 w1) as [[r es] w2] eqn:Hrun.
  unfold trace_of. simpl fst. simpl snd.
  change (writes (EvEncode src :: es)) with (writes es).
  change (decoder_inputs (EvEncode src :: es)) with (decoder_inputs es).
  destruct t as [|j]; [lia|]. intros Hj.
  destruct (loop_decoder_inputs float32 zero score score0 to_float32 gtb layer
      W self tgt b false
              (range1 T) s0 w1 r es w2 Hrun) as [_ Hfed].
  destruct (Hfed j inp Hj) as [i Hi].
  destruct (loop_selections float32 zero score score0 to_float32 gtb layer W
      self tgt b false
              (range1 T) s0 w1 r es w2 j i inp Hrun Hi)
    as (Hr & d & Hw & Hn).
  apply range1_nth in Hr. subst i.
  exists d. simpl. rewrite Nat.sub_0_r. auto.
Qed.

(** What [argmax(1)] returns for a (batch, vocabulary) distribution has
    the one-dimensional shape (batch,). *)
Lemma argmax1_shape_2d (d : Tensor score) (inp : Tensor Z) (b V : nat) :
  shape d = [b; V] -> argmax1 score0 gtb d = Ok inp -> shape inp = [b].
Proof.
  intros Hs. unfold argmax1. rewrite Hs.
  destruct (V =? 0); [discriminate|]. now intros [= <-].
Qed.

End Greedy.

(** [argmax_list] on integers returns the first index of the maximum. *)
Lemma argmax_from_first_max (l pre : list Z) (best_i : nat) :
  best_i < length pre ->
  (forall j, j < length pre -> (nth j pre 0 <= nth best_i pre 0)%Z) ->
  (forall j, j < best_i -> (nth j pre 0 < nth best_i pre 0)%Z) ->
  let k := argmax_from Z.gtb best_i (nth best_i pre 0%Z) (length pre) l in
  k < length (pre ++ l)
  /\ (forall j, j < length (pre ++ l) ->
                (nth j (pre ++ l) 0 <= nth k (pre ++ l) 0)%Z)
  /\ (forall j, j < k -> (nth j (pre ++ l) 0 < nth k (pre ++ l) 0)%Z).
Proof.
  revert pre best_i. induction l as [|x l IH]; intros pre best_i Hb Hmax Hfirst.
  - simpl. rewrite app_nil_r. auto.
  - simpl argmax_from.
    assert (Hlen : length (pre ++ [x]) = S (length pre))
      by (rewrite length_app; simpl; lia).
    assert (Hx : nth (length pre) (pre ++ [x]) 0%Z = x)
      by (rewrite app_nth2, Nat.sub_diag by lia; reflexivity).
    assert (Hpre : forall j, j < length pre ->
                             nth j (pre ++ [x]) 0%Z = nth j pre 0%Z)
      by (intros j Hj; now rewrite app_nth1).
    replace (pre ++ x :: l) with ((pre ++ [x]) ++ l)
      by (now rewrite <- app_assoc).
    destruct (Z.gtb x (nth best_i pre 0%Z)) eqn:Hgt.
    + rewrite Z.gtb_lt in Hgt.
      specialize (IH (pre ++ [x]) (length pre)).
      rewrite Hx, Hlen in IH. apply IH.
      * lia.
      * intros j Hj.
        destruct (Nat.eq_dec j (length pre)) as [-> | Hne];
          [rewrite Hx; lia|].
        rewrite Hpre by lia. specialize (Hmax j). lia.
      * intros j Hj. rewrite Hpre by lia. specialize (Hmax j). lia.
    + assert (Hle : (x <= nth best_i pre 0)%Z).
      { destruct (Z.gtb_spec x (nth best_i pre 0%Z)); [discriminate | lia]. }
      specialize (IH (pre ++ [x]) best_i).
      rewrite (Hpre best_i Hb), Hlen in IH. apply IH.
      * lia.
      * intros j Hj.
        destruct (Nat.eq_dec j (length pre)) as [-> | Hne];
          [rewrite Hx; lia|].
        rewrite Hpre by lia. apply Hmax. lia.
      * intros j Hj. rewrite Hpre by lia.
        now apply Hfirst.
Qed.

Lemma argmax_list_first_max (l : list Z) :
  l <> [] ->
  argmax_list Z.gtb l < length l
  /\ (forall j, j < length l ->
                (nth j l 0 <= nth (argmax_list Z.gtb l) l 0)%Z)
  /\ (forall j, j < argmax_list Z.gtb l ->
                (nth j l 0 < nth (argmax_list Z.gtb l) l 0)%Z).
Proof.
  destruct l as [|x l]; [congruence|]. intros _.
  apply (argmax_from_first_max l [x] 0); simpl.
  - lia.
  - intros j Hj. assert (j = 0) as -> by lia. lia.
  - intros j Hj. lia.
Qed.

(** C2 (greedy input), evaluated.  Source of batch size 2, target of
    shape (2, 3), [teacher_forcing=False], a decoder answering
    [tied_distribution] of shape (2, 3).  The input selected at
    iteration 1 and fed to the second decoder call holds the first
    maximal index of each row, 1 and 0, but as [argmax(1)] returns it,
    with shape (2,): the branch does not reshape to (batch_size, 1) as
    the teacher-forcing branch does.  A decoder that accepts inputs of
    shape (batch, 1) only therefore returns with teacher forcing and
    raises without. *)
Theorem forward_greedy_input_not_reshaped :
  selections (trace_of greedy_run)
  = [(1, mkTensor [2] [1; 0]%Z); (2, mkTensor [2] [1; 0]%Z)]
  /\ nth_error (decoder_inputs (trace_of greedy_run)) 1
     = Some (mkTensor [2] [1; 0]%Z)
  /\ argmax1 0%Z Z.gtb tied_distribution = Ok (mkTensor [2] [1; 0]%Z)
  /\ reshape (mkTensor [2] [1; 0]%Z) [2; 1]
     = Ok (mkTensor [2; 1] [1; 0]%Z)
  /\ mkTensor [2] [1; 0]%Z <> mkTensor [2; 1] [1; 0]%Z
  /\ is_ok (result_of
              (forward 0%Z 0%Z float32_of_int64 Z.gtb (stub_model
                  (strict_one_hot_decoder 5))
                 scenario_source scenario_target true 0)) = true
  /\ result_of
       (forward 0%Z 0%Z float32_of_int64 Z.gtb (stub_model
           (strict_one_hot_decoder 5))
          scenario_source scenario_target false 0)
     = Err (OtherError "decoder input is not (batch, 1)").
Proof.
  repeat split; try (vm_compute; reflexivity). discriminate.
Qed.

(** ** Concrete instances *)

Lemma stub_encoder_deterministic : deterministic_encoder stub_encoder.
Proof. intros src w1 w2. reflexivity. Qed.

Lemma one_hot_decoder_deterministic (vocab : nat) :
  deterministic_decoder (one_hot_decoder vocab).
Proof. intros inp h c w1 w2. reflexivity. Qed.

Lemma one_hot_decoder_answers (b vocab : nat) :
  forall inp h c w0,
    fed_input b true inp ->
    exists d h' c' w',
      Decoder_forward (one_hot_decoder vocab) inp h c w0
      = (Ok (d, h', c'), w')
      /\ shape d = [b; vocab].
Proof.
  intros inp h c w0 [_ [Hs | [Hf _]]]; [|discriminate].
  simpl. eexists _, _, _, _. split; [reflexivity|].
  simpl. now rewrite Hs.
Qed.

Lemma forward_batch_mismatch_witness :
  (shape mismatch_source = [3; 2] /\ shape scenario_target = [2; 4])
  /\ result_of
       (forward 0%Z 0%Z float32_of_int64 Z.gtb scenario_model mismatch_source
           scenario_target
          true 0)
     = Err ShapeMismatchError
  /\ writes
       (trace_of
          (forward 0%Z 0%Z float32_of_int64 Z.gtb scenario_model
              mismatch_source scenario_target
             true 0))
     = [].
Proof.
  split; [split; reflexivity|].
  destruct (forward_batch_mismatch Z 0%Z Z 0%Z float32_of_int64 Z.gtb unit nat
      scenario_model
              mismatch_source scenario_target true 0 3 2 2 4
              eq_refl eq_refl ltac:(lia))
    as (_ & Hw & _ & He).
  split; [apply He; [lia | reflexivity] | exact Hw].
Defined.

Lemma forward_returns_shape_witness :
  exists out,
    result_of
      (forward 0%Z 0%Z float32_of_int64 Z.gtb scenario_model scenario_source
          scenario_target
         true 0) = Ok out
    /\ shape out = [2; 4; 5] /\ wf out.
Proof.
  apply (forward_returns_shape Z 0%Z Z 0%Z float32_of_int64 Z.gtb unit nat
      scenario_model
           scenario_source scenario_target true 0 2 3 4).
  - reflexivity.
  - reflexivity.
  - lia.
  - reflexivity.
  - apply one_hot_decoder_answers.
  - discriminate.
Defined.

Lemma forward_first_position_zero_witness :
  result_of
    (forward 0%Z 0%Z float32_of_int64 Z.gtb scenario_model scenario_source
        scenario_target
       true 0) = Ok scenario_output
  /\ exists b T,
       shape_at scenario_source 0 = Ok b
       /\ shape_at scenario_target 1 = Ok T
       /\ shape scenario_output = [b; T; 5]
       /\ select1 0%Z scenario_output 0 = Ok (zeros 0%Z [b; 5]).
Proof.
  split; [vm_compute; reflexivity|].
  apply (proj2 (forward_first_position_zero Z 0%Z Z 0%Z float32_of_int64 Z.gtb
      unit nat
                  scenario_model scenario_source scenario_target true 0)).
  vm_compute. reflexivity.
Defined.

Lemma forward_length_one_witness :
  exists out,
    result_of
      (forward 0%Z 0%Z float32_of_int64 Z.gtb scenario_model
         scenario_source start_only_target true 0) = Ok out
    /\ shape out = [2; 1; 5]
    /\ length (data out) = 2 * 5
    /\ (forall p, p < 2 * 5 -> nth_error (data out) p = Some 0%Z)
    /\ trace_of
         (forward 0%Z 0%Z float32_of_int64 Z.gtb scenario_model
            scenario_source start_only_target true 0)
       = [EvEncode scenario_source]
    /\ decoder_inputs
         (trace_of
            (forward 0%Z 0%Z float32_of_int64 Z.gtb scenario_model
               scenario_source start_only_target true 0)) = []
    /\ writes
         (trace_of
            (forward 0%Z 0%Z float32_of_int64 Z.gtb scenario_model
               scenario_source start_only_target true 0)) = []
    /\ state_of
         (forward 0%Z 0%Z float32_of_int64 Z.gtb scenario_model
            scenario_source start_only_target true 0) = 1.
Proof.
  exact (forward_length_one Z 0%Z Z 0%Z float32_of_int64 Z.gtb unit nat
           scenario_model scenario_source start_only_target true 0 2 3
           eq_refl eq_refl eq_refl).
Defined.

Lemma forward_encoder_called_once_witness :
  encoder_calls
    (trace_of
       (forward 0%Z 0%Z float32_of_int64 Z.gtb scenario_model scenario_source
           scenario_target
          true 0))
  = [scenario_source].
Proof.
  apply (forward_encoder_called_once Z 0%Z Z 0%Z float32_of_int64 Z.gtb unit
      nat scenario_model
           scenario_source scenario_target true 0 2 2 4 [3] []);
    reflexivity.
Defined.


Lemma forward_teacher_forcing_deterministic_witness :
  result_of
    (forward 0%Z 0%Z float32_of_int64 Z.gtb scenario_model scenario_source
        scenario_target
       true 0)
  = result_of
      (forward 0%Z 0%Z float32_of_int64 Z.gtb scenario_model scenario_source
          scenario_target
         true 4).
Proof.
  apply (forward_teacher_forcing_deterministic Z 0%Z Z 0%Z float32_of_int64
      Z.gtb unit nat
           scenario_model scenario_source scenario_target 0 4).
  - apply stub_encoder_deterministic.
  - apply one_hot_decoder_deterministic.
Defined.

Lemma forward_writes_once_in_order_witness :
  result_of
    (forward 0%Z 0%Z float32_of_int64 Z.gtb
       (stub_model (constant_decoder 5 wide_distribution))
       scenario_source scenario_target true 0) = Ok wide_output
  /\ map fst
       (writes
          (trace_of
             (forward 0%Z 0%Z float32_of_int64 Z.gtb
                (stub_model (constant_decoder 5 wide_distribution))
                scenario_source scenario_target true 0)))
     = [1; 2; 3]
  /\ select1 0%Z wide_output 1
     = Ok (mkTensor [2; 5]
             [16777216; 0; 0; 0; 0;  1; 2; 3; 4; 16777220]%Z).
Proof.
  split; [vm_compute; reflexivity|].
  destruct (forward_writes_once_in_order Z 0%Z Z 0%Z float32_of_int64 Z.gtb
              unit nat (stub_model (constant_decoder 5 wide_distribution))
              scenario_source scenario_target true 0 2 4 wide_output
              eq_refl eq_refl ltac:(lia) ltac:(vm_compute; reflexivity))
    as (Hi & _ & _ & _ & Hsl).
  split; [exact Hi|].
  destruct (Hsl 1 wide_distribution ltac:(vm_compute; left; reflexivity))
    as [_ Hsame].
  rewrite Hsame; [vm_compute; reflexivity | reflexivity | reflexivity].
Defined.

(** ** Errors and edges of the call *)

Section Edges.

Variable float32 : Type.
Variable zero : float32.
Variable score : Type.
Variable score0 : score.
Variable to_float32 : score -> float32.
Variable gtb : score -> score -> bool.
Variable layer : Type.
Variable W : Type.

Local Abbreviation fwd := (forward zero score0 to_float32 gtb).

Variable self : SequenceToSequence score layer W.

(** X1 (missing dimension).  A source without a dimension 0, or a
    target without a dimension 1, makes [forward] raise IndexError at
    the shape lookup, before the encoder is called: the trace is empty
    and the collaborators' state untouched. *)
Theorem forward_missing_dimension (src tgt : Tensor Z) (tf : bool) (w : W) :
  shape src = [] \/ length (shape tgt) < 2 ->
  fwd self src tgt tf w = (Err IndexError, [], w).
Proof.
  intros H. rewrite forward_cases. unfold shape_at.
  destruct (shape src) as [|b srest] eqn:Hsrc; [reflexivity|].
  destruct H as [H | H]; [discriminate|].
  simpl nth_error. cbv iota.
  destruct (shape tgt) as [|bt [|T trest]]; simpl in H; try reflexivity.
  lia.
Qed.

(** X2 (target without columns).  With a target of length 0 the encoder
    is still called; then reading column 0 raises IndexError.  The
    decoder is never called. *)
Theorem forward_empty_target (src tgt : Tensor Z) (tf : bool) (w w1 : W)
  (b bt : nat) (srest trest : list nat) (hc : layer * layer) :
  shape src = b :: srest -> shape tgt = bt :: 0 :: trest ->
  encoder self src w = (Ok hc, w1) ->
  fwd self src tgt tf w
  = (Err IndexError, [EvEncode src], w1).
Proof.
  intros Hsrc Htgt Henc. rewrite forward_cases. unfold shape_at.
  rewrite Hsrc, Htgt. simpl nth_error. cbv iota. rewrite Henc.
  destruct hc as [h c].
  unfold target_column, select1. rewrite Htgt. reflexivity.
Qed.

(** X3 (the encoder raises).  What the encoder raises is what [forward]
    raises; the trace is the encoder call alone and the collaborators
    are left as the encoder left them. *)
Theorem forward_encoder_error (src tgt : Tensor Z) (tf : bool) (w w1 : W)
  (b bt T : nat) (srest trest : list nat) (e : error) :
  shape src = b :: srest -> shape tgt = bt :: T :: trest ->
  encoder self src w = (Err e, w1) ->
  fwd self src tgt tf w = (Err e, [EvEncode src], w1).
Proof.
  intros Hsrc Htgt Henc. rewrite forward_cases. unfold shape_at.
  rewrite Hsrc, Htgt. simpl nth_error. cbv iota. now rewrite Henc.
Qed.

(** X4 (the decoder raises at the first step).  With a target of at
    least two columns, when the decoder raises on the start column what
    it raises is what [forward] raises: nothing was written, and the
    zero-initialised buffer is not returned. *)
Theorem forward_decoder_error (src tgt : Tensor Z) (tf : bool)
  (w w1 w2 : W) (b T : nat) (h c : layer) (inp0 : Tensor Z) (e : error) :
  shape_at src 0 = Ok b -> shape_at tgt 1 = Ok T -> 2 <= T ->
  encoder self src w = (Ok (h, c), w1) ->
  target_column tgt b 0 = Ok inp0 ->
  Decoder_forward (decoder self) inp0 h c w1 = (Err e, w2) ->
  fwd self src tgt tf w
  = (Err e, [EvEncode src; EvDecode inp0 None], w2).
Proof.
  intros Hb HT H2 Henc Hcol Hdec.
  rewrite forward_cases, Hb, HT, Henc, Hcol.
  unfold range1. destruct T as [|[|T']]; try lia.
  simpl seq. rewrite loop_cons, loop_body_cases. simpl.
  now rewrite Hdec.
Qed.


(** X6 (width mismatch).  When the distribution the decoder returns at
    the first step has shape (batch_size, V') with V' neither the
    declared [out_features] nor 1, the write into the buffer raises the
    shape mismatch: the distribution is neither cut nor padded, and
    nothing is written. *)
Theorem forward_width_mismatch (src tgt : Tensor Z) (tf : bool)
  (w w1 w2 : W) (b T V' : nat) (h c h' c' : layer) (inp0 : Tensor Z)
  (d : Tensor score) :
  shape_at src 0 = Ok b -> shape_at tgt 1 = Ok T -> 2 <= T ->
  encoder self src w = (Ok (h, c), w1) ->
  target_column tgt b 0 = Ok inp0 ->
  Decoder_forward (decoder self) inp0 h c w1 = (Ok (d, h', c'), w2) ->
  shape d = [b; V'] ->
  V' <> fc_out_out_features (decoder self) -> V' <> 1 ->
  fwd self src tgt tf w
  = (Err ShapeMismatchError, [EvEncode src; EvDecode inp0 (Some d)], w2).
Proof.
  intros Hb HT H2 Henc Hcol Hdec Hd HV H1.
  rewrite forward_cases, Hb, HT, Henc, Hcol.
  unfold range1. destruct T as [|[|T']]; try lia.
  simpl seq. rewrite loop_cons, loop_body_cases. simpl.
  rewrite Hdec.
  assert (Hw : setitem1 zero
                 (zeros zero
                    [b; S (S T'); fc_out_out_features (decoder self)]) 1
                 (to_dtype to_float32 d)
               = Err ShapeMismatchError).
  { unfold setitem1. simpl shape. rewrite Hd, strip1_2.
    apply Nat.eqb_neq in HV, H1.
    destruct (b =? 1) eqn:Hb1.
    - rewrite H1. unfold expandable. simpl. now rewrite HV, H1.
    - unfold expandable. simpl. now rewrite HV, H1, Bool.andb_false_r. }
  now rewrite Hw.
Qed.

End Edges.

(** ** Progress of a run, returning or not *)

Section Progress.

Variable float32 : Type.
Variable zero : float32.
Variable score : Type.
Variable score0 : score.
Variable to_float32 : score -> float32.
Variable gtb : score -> score -> bool.
Variable layer : Type.
Variable W : Type.

Local Abbreviation fwd := (forward zero score0 to_float32 gtb).

Variable self : SequenceToSequence score layer W.

Lemma firstn_seq_prefix (k a n : nat) :
  k <= n -> firstn k (seq a n) = seq a k.
Proof.
  revert a n. induction k as [|k IH]; intros a n Hk; [reflexivity|].
  destruct n as [|n]; [lia|]. simpl. f_equal. apply IH. lia.
Qed.

(** However the loop ends, the writes carry the first indices of the
    loop in order, every selection follows a write and every write a
    decoder call, and at most one decoder call is left without its
    selection. *)
Lemma loop_progress (tgt : Tensor Z) (b : nat) (tf : bool) (l : list nat) :
  forall s w r es w',
    loop zero score0 to_float32 gtb self tgt b tf l s w = (r, es, w') ->
    map fst (writes es) = firstn (length (writes es)) l
    /\ length (decoder_inputs es) <= length l
    /\ length (writes es) <= length (decoder_inputs es)
    /\ length (selections es) <= length (writes es)
    /\ length (decoder_inputs es) <= S (length (selections es)).
Proof.
  induction l as [|i l IH]; intros s w r es w' Hrun.
  - injection Hrun as _ <- _. simpl. repeat split; lia.
  - rewrite loop_cons in Hrun.
    destruct (loop_body zero score0 to_float32 gtb self tgt b tf i s w)
      as [[[s' | e] es1] w1] eqn:Hb.
    + destruct (loop zero score0 to_float32 gtb self tgt b tf l s' w1)
        as [[r2 es2] w2] eqn:Hrest.
      injection Hrun as _ <- _.
      apply loop_body_ok in Hb as (d & _ & _ & _ & ->).
      destruct (IH _ _ _ _ _ Hrest) as (Hw & H1 & H2 & H3 & H4).
      rewrite trace_app_writes, trace_app_inputs, trace_app_selections.
      simpl. rewrite Hw at 1. repeat split; lia.
    + injection Hrun as _ <- _.
      apply loop_body_err in Hb as [-> | (d & [-> | ->])];
        simpl; repeat split; lia.
Qed.

(** X7 (progress of any run).  However [forward] ends, the writes it
    made carry the indices 1, 2, ... without a gap; the decoder was
    called at most target_length - 1 times; every selection of a next
    input follows a write, every write a decoder call, and at most one
    decoder call is left without its selection. *)
Theorem forward_progress (src tgt : Tensor Z) (tf : bool) (w : W) (T : nat) :
  shape_at tgt 1 = Ok T ->
  map fst (writes (trace_of (fwd self src tgt tf w)))
  = seq 1 (length (writes (trace_of (fwd self src tgt tf w))))
  /\ length (decoder_inputs
               (trace_of (fwd self src tgt tf w))) <= T - 1
  /\ length (writes (trace_of (fwd self src tgt tf w)))
     <= length (decoder_inputs
                  (trace_of (fwd self src tgt tf w)))
  /\ length (selections (trace_of (fwd self src tgt tf w)))
     <= length (writes (trace_of (fwd self src tgt tf w)))
  /\ length (decoder_inputs
               (trace_of (fwd self src tgt tf w)))
     <= S (length (selections
                     (trace_of (fwd self src tgt tf w)))).
Proof.
  intros HT. rewrite forward_cases, HT.
  destruct (shape_at src 0) as [b | e]; [|simpl; repeat split; lia].
  destruct (encoder self src w) as [[[h c] | e] w1];
    [|simpl; repeat split; lia].
  destruct (target_column tgt b 0) as [inp0 | e];
    [|simpl; repeat split; lia].
  set (s0 := mkLoopState _ h c inp0).
  destruct (loop _ _ _ _ _ _ _ _ _ s0 w1) as [[r es] w2] eqn:Hrun.
  unfold trace_of. simpl fst. simpl snd.
  change (writes (EvEncode src :: es)) with (writes es).
  change (decoder_inputs (EvEncode src :: es)) with (decoder_inputs es).
  change (selections (EvEncode src :: es)) with (selections es).
  destruct (loop_progress tgt b tf (range1 T) s0 w1 r es w2 Hrun)
    as (Hw & H1 & H2 & H3 & H4).
  unfold range1 in Hw, H1. rewrite length_seq in H1.
  rewrite firstn_seq_prefix in Hw by lia.
  repeat split; assumption.
Qed.

End Progress.

(** ** What the greedy branch feeds *)

Section GreedyMaximum.

Variable float32 : Type.
Variable zero : float32.
Variable score : Type.
Variable score0 : score.
Variable to_float32 : score -> float32.
Variable gtb : score -> score -> bool.
Variable layer : Type.
Variable W : Type.

Local Abbreviation fwd := (forward zero score0 to_float32 gtb).

Hypothesis gtb_order : strict_weak_order gtb.

Lemma argmax_from_first_maximum (l pre : list score) (best_i : nat) :
  best_i < length pre ->
  (forall j, j < length pre ->
             gtb (nth j pre score0) (nth best_i pre score0) = false) ->
  (forall j, j < best_i ->
             gtb (nth best_i pre score0) (nth j pre score0) = true) ->
  let k := argmax_from gtb best_i (nth best_i pre score0) (length pre) l in
  k < length (pre ++ l)
  /\ (forall j, j < length (pre ++ l) ->
                gtb (nth j (pre ++ l) score0) (nth k (pre ++ l) score0) = false)
  /\ (forall j, j < k ->
                gtb (nth k (pre ++ l) score0) (nth j (pre ++ l) score0) = true).
Proof.
  destruct gtb_order as (Hirr & Htrans & Hneg).
  revert pre best_i.
  induction l as [|x l IH]; intros pre best_i Hb Hmax Hfirst.
  - simpl. rewrite app_nil_r. auto.
  - simpl argmax_from.
    assert (Hlen : length (pre ++ [x]) = S (length pre))
      by (rewrite length_app; simpl; lia).
    assert (Hx : nth (length pre) (pre ++ [x]) score0 = x)
      by (rewrite app_nth2, Nat.sub_diag by lia; reflexivity).
    assert (Hpre : forall j, j < length pre ->
                             nth j (pre ++ [x]) score0 = nth j pre score0)
      by (intros j Hj; now rewrite app_nth1).
    replace (pre ++ x :: l) with ((pre ++ [x]) ++ l)
      by (now rewrite <- app_assoc).
    destruct (gtb x (nth best_i pre score0)) eqn:Hgt.
    + specialize (IH (pre ++ [x]) (length pre)).
      rewrite Hx, Hlen in IH. apply IH.
      * lia.
      * intros j Hj.
        destruct (Nat.eq_dec j (length pre)) as [-> | Hne];
          [rewrite Hx; apply Hirr|].
        rewrite Hpre by lia.
        destruct (gtb (nth j pre score0) x) eqn:Hjx; [|reflexivity].
        rewrite <- (Hmax j) by lia. symmetry.
        now apply (Htrans _ x).
      * intros j Hj. rewrite Hpre by lia.
        apply (Hneg _ _ (nth best_i pre score0)); [exact Hgt|].
        apply Hmax. lia.
    + specialize (IH (pre ++ [x]) best_i).
      rewrite (Hpre best_i Hb), Hlen in IH. apply IH.
      * lia.
      * intros j Hj.
        destruct (Nat.eq_dec j (length pre)) as [-> | Hne];
          [now rewrite Hx|].
        rewrite Hpre by lia. apply Hmax. lia.
      * intros j Hj. rewrite Hpre by lia.
        now apply Hfirst.
Qed.

(** On a list that is not empty, [argmax_list] is the index of an
    element that none exceeds and that exceeds every earlier one. *)
Lemma argmax_list_first_maximum (l : list score) :
  l <> [] ->
  argmax_list gtb l < length l
  /\ (forall j, j < length l ->
                gtb (nth j l score0) (nth (argmax_list gtb l) l score0) = false)
  /\ (forall j, j < argmax_list gtb l ->
                gtb (nth (argmax_list gtb l) l score0) (nth j l score0) = true).
Proof.
  destruct l as [|x l]; [congruence|]. intros _.
  apply (argmax_from_first_maximum l [x] 0); simpl.
  - lia.
  - intros j Hj. assert (j = 0) as -> by lia.
    destruct gtb_order as (Hirr & _). apply Hirr.
  - intros j Hj. lia.
Qed.

Lemma distribution_row_nth (d : Tensor score) (V i j : nat) :
  j < V ->
  nth j (distribution_row score0 d V i) score0 = nth (i * V + j) (data d)
      score0.
Proof.
  intros Hj. unfold distribution_row.
  exact (nth_tabulate V (fun j => nth (i * V + j) (data d) score0) score0 j Hj).
Qed.

(** [argmax(1)] of a (batch, vocabulary) distribution, row by row. *)
Lemma argmax1_rows (d : Tensor score) (inp : Tensor Z) (b V : nat) :
  shape d = [b; V] -> argmax1 score0 gtb d = Ok inp ->
  1 <= V /\ shape inp = [b]
  /\ forall i, i < b ->
       nth i (data inp) 0%Z
       = Z.of_nat (argmax_list gtb (distribution_row score0 d V i)).
Proof.
  intros Hs. unfold argmax1. rewrite Hs.
  destruct (V =? 0) eqn:HV; [discriminate|]. apply Nat.eqb_neq in HV.
  intros [= <-]. cbn [shape data].
  split; [lia|]. split; [reflexivity|].
  intros i Hi. rewrite nth_tabulate by (simpl; lia).
  do 2 f_equal. unfold distribution_row. apply map_ext.
  intros j. f_equal.
  change (fst (Nat.divmod i 0 0 0)) with (i / 1).
  rewrite Nat.div_1_r. lia.
Qed.

(** X8 (the greedy input is the first maximum).  Without teacher
    forcing and with scores compared by the strict part of a total
    preorder, the decoder call that follows [t] earlier calls receives
    [argmax(1)] of the distribution written at index [t]: for a
    (batch, V) distribution a tensor of shape (batch,) holding, for each
    row, an index whose score none exceeds and which exceeds every
    earlier score of the row. *)
Theorem forward_greedy_first_maximum
  (self : SequenceToSequence score layer W)
  (src tgt : Tensor Z) (w : W) (t : nat) (inp : Tensor Z) :
  1 <= t ->
  nth_error
    (decoder_inputs (trace_of (fwd self src tgt false w))) t
  = Some inp ->
  exists d,
    nth_error (writes (trace_of (fwd self src tgt false w)))
      (t - 1) = Some (t, d)
    /\ forall b V,
         shape d = [b; V] ->
         shape inp = [b]
         /\ forall i, i < b ->
              exists k,
                nth i (data inp) 0%Z = Z.of_nat k /\ k < V
                /\ (forall j, j < V ->
                      gtb (nth (i * V + j) (data d) score0)
                          (nth (i * V + k) (data d) score0) = false)
                /\ (forall j, j < k ->
                      gtb (nth (i * V + k) (data d) score0)
                          (nth (i * V + j) (data d) score0) = true).
Proof.
  intros Ht Hin.
  destruct (forward_greedy_inputs float32 zero score score0 to_float32 gtb
      layer W self src tgt w
              t inp Ht Hin) as (d & Hw & Harg).
  exists d. split; [exact Hw|].
  intros b V Hs.
  destruct (argmax1_rows d inp b V Hs Harg) as (HV & Hshape & Hrows).
  split; [exact Hshape|].
  intros i Hi.
  set (row := distribution_row score0 d V i).
  assert (Hlen : length row = V)
    by (unfold row, distribution_row; now rewrite length_map, length_seq).
  assert (Hne : row <> [])
    by (intros Hnil; rewrite Hnil in Hlen; simpl in Hlen; lia).
  destruct (argmax_list_first_maximum row Hne) as (Hk & Hmax & Hfirst).
  rewrite Hlen in Hk, Hmax.
  exists (argmax_list gtb row). split; [now apply Hrows|].
  split; [exact Hk|]. split.
  - intros j Hj. specialize (Hmax j Hj). unfold row in Hmax.
    now rewrite !distribution_row_nth in Hmax by assumption.
  - intros j Hj. specialize (Hfirst j Hj). unfold row in Hfirst, Hj, Hk.
    rewrite !distribution_row_nth in Hfirst by lia. exact Hfirst.
Qed.

End GreedyMaximum.

(** ** What the buffer holds, and where it comes from *)

Section Contents.

Variable float32 : Type.
Variable zero : float32.
Variable score : Type.
Variable score0 : score.
Variable to_float32 : score -> float32.
Variable gtb : score -> score -> bool.
Variable layer : Type.
Variable W : Type.

Local Abbreviation fwd := (forward zero score0 to_float32 gtb).

Variable self : SequenceToSequence score layer W.

(** In a run that returns, the writes are numbered as the loop counts,
    carry what the decoder returned, and are readable in the result. *)
Lemma forward_written_slices (src tgt : Tensor Z) (tf : bool) (w : W)
  (b T : nat) (out : Tensor float32) :
  shape_at src 0 = Ok b -> shape_at tgt 1 = Ok T ->
  result_of (fwd self src tgt tf w) = Ok out ->
  map fst (writes (trace_of (fwd self src tgt tf w)))
  = range1 T
  /\ forall i d,
       In (i, d) (writes (trace_of (fwd self src tgt tf w))) ->
       select1 zero out i
       = expand zero (to_dtype to_float32 d) [b; fc_out_out_features (decoder
           self)].
Proof.
  intros Hb HT. rewrite forward_cases, Hb, HT.
  destruct (encoder self src w) as [[[h c] | e] w1]; [|discriminate].
  destruct (target_column tgt b 0) as [inp0 | e]; [|discriminate].
  set (s0 := mkLoopState _ h c inp0).
  destruct (loop _ _ _ _ _ _ _ _ _ s0 w1) as [[r es] w2] eqn:Hrun.
  unfold result_of, trace_of. simpl fst. simpl snd. intros ->.
  change (writes (EvEncode src :: es)) with (writes es).
  destruct (loop_writes float32 zero score score0 to_float32 gtb layer W self
      tgt b tf T
              (fc_out_out_features (decoder self))
              (range1 T) s0 w1 out es w2 Hrun (seq_NoDup _ _)
              eq_refl (zeros_wf _ _ _))
    as (Hi & _ & _ & Hsl).
  split; assumption.
Qed.

Lemma expand_get_column {A} (z : A) (d : Tensor A) (b V p : nat) :
  shape d = [b; 1] -> p < b * V ->
  expand_get z d [b; V] p = nth (p / V) (data d) z.
Proof.
  intros Hs Hp. unfold expand_get. rewrite Hs, strip1_2.
  assert (HV : V <> 0) by (intros ->; lia).
  destruct (b =? 1) eqn:Hb.
  - apply Nat.eqb_eq in Hb. subst b. simpl.
    f_equal. symmetry. apply Nat.div_small. lia.
  - cbn [length Nat.sub skipn unravel numel fold_right source_index ravel].
    rewrite Hb. simpl (1 =? 1).
    rewrite !Nat.mul_1_r, !Nat.add_0_r. reflexivity.
Qed.

(** X9 (a one-score distribution is spread).  The width of what the
    decoder returns is not checked against [out_features] beyond what
    broadcasting refuses: in a run that returns, a written distribution
    of shape (batch_size, 1) fills the whole vocabulary axis of its time
    step with the single score of each batch element, converted to the
    element type of the buffer. *)
Theorem forward_column_broadcast (src tgt : Tensor Z) (tf : bool) (w : W)
  (b T i : nat) (out : Tensor float32) (d : Tensor score) :
  shape_at src 0 = Ok b -> shape_at tgt 1 = Ok T ->
  result_of (fwd self src tgt tf w) = Ok out ->
  In (i, d)
    (writes (trace_of (fwd self src tgt tf w))) ->
  shape d = [b; 1] ->
  select1 zero out i
  = Ok (mkTensor [b; fc_out_out_features (decoder self)]
          (tabulate (b * fc_out_out_features (decoder self))
             (fun p =>
                nth (p / fc_out_out_features (decoder self))
                  (map to_float32 (data d)) zero))).
Proof.
  intros Hb HT Hok Hin Hd.
  destruct (forward_written_slices src tgt tf w b T out Hb HT Hok)
    as [_ Hsl].
  rewrite (Hsl i d Hin). unfold expand.
  cbn [to_dtype shape]. rewrite Hd.
  assert (He : expandable (strip1 [b; 1])
                 [b; fc_out_out_features (decoder self)] = true).
  { rewrite strip1_2. unfold expandable.
    destruct (b =? 1) eqn:Hb1; simpl; [reflexivity|].
    now rewrite Nat.eqb_refl, Bool.orb_true_r. }
  rewrite He, numel_2. do 2 f_equal.
  apply tabulate_ext. intros p Hp.
  exact (expand_get_column zero (to_dtype to_float32 d) b
           (fc_out_out_features (decoder self)) p Hd Hp).
Qed.

(** X10 (the recurrent state is threaded).  In a run that returns, the
    slice of the buffer at time [t + 1] is the [t]-th distribution of
    the decoding chain, converted to the element type of the buffer and
    broadcast: the decoder's answer to the input selected at
    the step before, in the layers and the collaborator state the step
    before returned, the chain starting from column 0 of the target and
    from what the encoder returned.  The chain has target_length - 1
    distributions. *)
Theorem forward_threads_state (src tgt : Tensor Z) (tf : bool) (w w1 : W)
  (b T : nat) (h c : layer) (inp0 : Tensor Z) (out : Tensor float32) :
  shape_at src 0 = Ok b -> shape_at tgt 1 = Ok T ->
  encoder self src w = (Ok (h, c), w1) ->
  target_column tgt b 0 = Ok inp0 ->
  result_of (fwd self src tgt tf w) = Ok out ->
  length (decoder_chain score0 gtb self tgt b tf (range1 T) inp0 h c w1)
  = T - 1
  /\ forall t d,
       nth_error
         (decoder_chain score0 gtb self tgt b tf (range1 T) inp0 h c w1) t
       = Some d ->
       select1 zero out (S t)
       = expand zero (to_dtype to_float32 d) [b; fc_out_out_features (decoder
           self)].
Proof.
  intros Hb HT Henc Hcol Hok.
  destruct (forward_written_slices src tgt tf w b T out Hb HT Hok)
    as [Hidx Hsl].
  revert Hok Hidx Hsl.
  rewrite forward_cases, Hb, HT, Henc, Hcol.
  set (s0 := mkLoopState _ h c inp0).
  destruct (loop _ _ _ _ _ _ _ _ _ s0 w1) as [[r es] w2] eqn:Hrun.
  unfold result_of, trace_of. simpl fst. simpl snd. intros ->.
  change (writes (EvEncode src :: es)) with (writes es).
  intros Hidx Hsl.
  destruct (loop_writes float32 zero score score0 to_float32 gtb layer W self
      tgt b tf T
              (fc_out_out_features (decoder self))
              (range1 T) s0 w1 out es w2 Hrun (seq_NoDup _ _)
              eq_refl (zeros_wf _ _ _))
    as (_ & Ho & _ & _).
  pose proof (loop_decoder_chain float32 zero score score0 to_float32 gtb
                layer W self tgt b tf (range1 T) s0 w1 out es w2 Hrun)
    as Hchain.
  unfold s0 in Hchain.
  cbn [target_input hidden_layer cell_layer] in Hchain.
  rewrite <- Hchain, <- Ho. split.
  - rewrite length_map, <- (length_map fst), Hidx.
    apply length_seq.
  - intros t d Ht. rewrite nth_error_map in Ht.
    destruct (nth_error (writes es) t) as [[i d'] |] eqn:Hw;
      [|discriminate].
    injection Ht as <-.
    assert (Hi : nth_error (map fst (writes es)) t = Some i)
      by (rewrite nth_error_map, Hw; reflexivity).
    rewrite Hidx in Hi. apply range1_nth in Hi. subst i.
    apply Hsl. exact (nth_error_In _ _ Hw).
Qed.

End Contents.

(** ** What of the target the call depends on *)

Section TargetUse.

Variable float32 : Type.
Variable zero : float32.
Variable score : Type.
Variable score0 : score.
Variable to_float32 : score -> float32.
Variable gtb : score -> score -> bool.
Variable layer : Type.
Variable W : Type.

Local Abbreviation fwd := (forward zero score0 to_float32 gtb).

Variable self : SequenceToSequence score layer W.

(** Without teacher forcing an iteration does not look at the target. *)
Lemma loop_greedy_ignores_target (tgt1 tgt2 : Tensor Z) (b : nat)
  (l : list nat) :
  forall s w,
    loop zero score0 to_float32 gtb self tgt1 b false l s w
    = loop zero score0 to_float32 gtb self tgt2 b false l s w.
Proof.
  induction l as [|i l IH]; intros s w; [reflexivity|].
  rewrite !loop_cons.
  assert (Hb : loop_body zero score0 to_float32 gtb self tgt1 b false i s w
               = loop_body zero score0 to_float32 gtb self tgt2 b false i s w)
    by (rewrite !loop_body_cases; reflexivity).
  rewrite Hb.
  destruct (loop_body zero score0 to_float32 gtb self tgt2 b false i s w)
    as [[[s' | e] es1] w1]; [|reflexivity].
  now rewrite IH.
Qed.

(** X11 (without teacher forcing, only the start column counts).  With
    [teacher_forcing=False], two targets of the same length whose
    columns 0 reshape alike give the same run: the same result, the
    same trace, the same collaborator state.  The other target tokens
    are never read. *)
Theorem forward_greedy_target_use (src tgt1 tgt2 : Tensor Z) (w : W) :
  shape_at tgt1 1 = shape_at tgt2 1 ->
  (forall b, shape_at src 0 = Ok b ->
             target_column tgt1 b 0 = target_column tgt2 b 0) ->
  fwd self src tgt1 false w
  = fwd self src tgt2 false w.
Proof.
  intros HT Hcol. rewrite !forward_cases, HT.
  destruct (shape_at src 0) as [b | e]; [|reflexivity].
  rewrite (Hcol b eq_refl).
  destruct (shape_at tgt2 1) as [T | e]; [|reflexivity].
  destruct (encoder self src w) as [[[h c] | e] w1]; [|reflexivity].
  destruct (target_column tgt2 b 0) as [inp0 | e]; [|reflexivity].
  now rewrite (loop_greedy_ignores_target tgt1 tgt2).
Qed.

(** With teacher forcing, an iteration reads the target at its own
    index only. *)
Lemma loop_body_teacher_column (tgt1 tgt2 : Tensor Z) (b i : nat)
  (s : loop_state float32 layer) (w : W) :
  target_column tgt1 b i = target_column tgt2 b i ->
  loop_body zero score0 to_float32 gtb self tgt1 b true i s w
  = loop_body zero score0 to_float32 gtb self tgt2 b true i s w.
Proof.
  intros H. rewrite !loop_body_cases. unfold next_target_input.
  now rewrite H.
Qed.

(** The column read at the last iteration selects an input that no
    decoder call receives: it changes neither the buffer nor the state
    the collaborators are left in. *)
Lemma loop_last_column (tgt1 tgt2 : Tensor Z) (b i : nat) (l : list nat) :
  (forall j, In j l -> target_column tgt1 b j = target_column tgt2 b j) ->
  is_ok (target_column tgt1 b i) = true ->
  is_ok (target_column tgt2 b i) = true ->
  forall s w,
    result_of (loop zero score0 to_float32 gtb self tgt1 b true (l ++ [i]) s w)
    = result_of (loop zero score0 to_float32 gtb self tgt2 b true (l ++ [i]) s
        w)
    /\ state_of (loop zero score0 to_float32 gtb self tgt1 b true (l ++ [i]) s
        w)
       = state_of (loop zero score0 to_float32 gtb self tgt2 b true (l ++ [i])
           s w).
Proof.
  intros Hl H1 H2.
  induction l as [|i0 l IH]; intros s w.
  - simpl app. rewrite !loop_cons, !loop_body_cases.
    unfold next_target_input.
    destruct (target_column tgt1 b i) as [inp1 | e1]; [|discriminate].
    destruct (target_column tgt2 b i) as [inp2 | e2]; [|discriminate].
    destruct (Decoder_forward _ _ _ _ _) as [[[[d h] c] | e] w1];
      [|split; reflexivity].
    destruct (setitem1 _ _ _ _) as [o | e]; split; reflexivity.
  - simpl app. rewrite !loop_cons.
    rewrite (loop_body_teacher_column tgt1 tgt2 b i0 s w)
      by (apply Hl; now left).
    destruct (loop_body zero score0 to_float32 gtb self tgt2 b true i0 s w)
      as [[[s' | e] es1] w1]; [|split; reflexivity].
    destruct (IH (fun j Hj => Hl j (or_intror Hj)) s' w1) as [Hr Hs].
    unfold result_of, state_of in *.
    destruct (loop zero score0 to_float32 gtb self tgt1 b true (l ++ [i]) s' w1)
      as [[r1 e1] w1'].
    destruct (loop zero score0 to_float32 gtb self tgt2 b true (l ++ [i]) s' w1)
      as [[r2 e2] w2'].
    simpl in *. subst. split; reflexivity.
Qed.

Lemma target_column_agree (tgt1 tgt2 : Tensor Z) (b bt T j : nat) :
  shape tgt1 = [bt; T] -> shape tgt2 = [bt; T] -> j < T ->
  (forall p, p < bt ->
             nth (p * T + j) (data tgt1) 0%Z
             = nth (p * T + j) (data tgt2) 0%Z) ->
  target_column tgt1 b j = target_column tgt2 b j.
Proof.
  intros H1 H2 Hj Hd.
  rewrite (target_column_2d tgt1 b bt T j H1 Hj).
  rewrite (target_column_2d tgt2 b bt T j H2 Hj).
  destruct (b =? bt); [|reflexivity].
  do 2 f_equal. apply tabulate_ext. exact Hd.
Qed.

(** X12 (the last target column is not an input).  With
    [teacher_forcing=True], two targets of the same shape that agree on
    every column but the last give the same result and leave the
    collaborators in the same state: the last target token is selected
    at the end of the last iteration and never fed to the decoder. *)
Theorem forward_teacher_last_column (src tgt1 tgt2 : Tensor Z) (w : W)
  (bt T : nat) :
  shape tgt1 = [bt; T] -> shape tgt2 = [bt; T] ->
  (forall p j, p < bt -> j < T - 1 ->
               nth (p * T + j) (data tgt1) 0%Z
               = nth (p * T + j) (data tgt2) 0%Z) ->
  result_of (fwd self src tgt1 true w)
  = result_of (fwd self src tgt2 true w)
  /\ state_of (fwd self src tgt1 true w)
     = state_of (fwd self src tgt2 true w).
Proof.
  intros H1 H2 Hd. rewrite !forward_cases.
  destruct (shape_at src 0) as [b | e]; [|split; reflexivity].
  unfold shape_at. rewrite H1, H2. simpl nth_error. cbv iota.
  destruct (encoder self src w) as [[[h c] | e] w1]; [|split; reflexivity].
  destruct T as [|[|T']].
  - unfold target_column, select1. rewrite H1, H2. split; reflexivity.
  - rewrite (target_column_2d tgt1 b bt 1 0 H1) by lia.
    rewrite (target_column_2d tgt2 b bt 1 0 H2) by lia.
    destruct (b =? bt); split; reflexivity.
  - assert (Hcols : forall j, j < S T' ->
                target_column tgt1 b j = target_column tgt2 b j).
    { intros j Hj.
      apply (target_column_agree tgt1 tgt2 b bt (S (S T')) j H1 H2);
        [lia|].
      intros p Hp. apply Hd; [assumption | lia]. }
    rewrite (Hcols 0) by lia.
    rewrite (target_column_2d tgt2 b bt (S (S T')) 0 H2) by lia.
    destruct (b =? bt) eqn:Hbt; [|split; reflexivity].
    set (s0 := mkLoopState _ h c _).
    assert (Hr : range1 (S (S T')) = seq 1 T' ++ [S T']).
    { unfold range1. replace (S (S T') - 1) with (S T') by lia.
      now rewrite seq_S. }
    rewrite Hr.
    destruct (loop_last_column tgt1 tgt2 b (S T') (seq 1 T')) with
      (s := s0) (w := w1) as [Hres Hst].
    + intros j Hj. apply in_seq in Hj. apply Hcols. lia.
    + rewrite (target_column_2d tgt1 b bt (S (S T')) (S T') H1) by lia.
      now rewrite Hbt.
    + rewrite (target_column_2d tgt2 b bt (S (S T')) (S T') H2) by lia.
      now rewrite Hbt.
    + unfold result_of, state_of in *.
      destruct (loop zero score0 to_float32 gtb self tgt1 b true (seq 1 T' ++
          [S T']) s0 w1)
        as [[r1 e1] w1'].
      destruct (loop zero score0 to_float32 gtb self tgt2 b true (seq 1 T' ++
          [S T']) s0 w1)
        as [[r2 e2] w2'].
      simpl in *. subst. split; reflexivity.
Qed.

End TargetUse.

(** ** Concrete instances of the edge and progress theorems *)

Lemma Z_gtb_strict_weak_order : strict_weak_order Z.gtb.
Proof.
  repeat split.
  - intros x. destruct (Z.gtb_spec x x); [lia | reflexivity].
  - intros x y z Hxy Hyz.
    destruct (Z.gtb_spec x y); [|discriminate].
    destruct (Z.gtb_spec y z); [|discriminate].
    destruct (Z.gtb_spec x z); [reflexivity | lia].
  - intros x y z Hxz Hyz.
    destruct (Z.gtb_spec x z); [|discriminate].
    destruct (Z.gtb_spec y z); [discriminate|].
    destruct (Z.gtb_spec x y); [reflexivity | lia].
Qed.

Lemma scenario_targets_agree :
  forall p j, p < 2 -> j < 4 - 1 ->
    nth (p * 4 + j) (data scenario_target) 0%Z
    = nth (p * 4 + j) (data scenario_target_last) 0%Z.
Proof.
  intros [|[|p]] [|[|[|j]]] Hp Hj; try lia; reflexivity.
Qed.

Lemma forward_missing_dimension_witness :
  forward 0%Z 0%Z float32_of_int64 Z.gtb scenario_model scalar_tensor
      scenario_target true 0
  = (Err IndexError, [], 0)
  /\ forward 0%Z 0%Z float32_of_int64 Z.gtb scenario_model scenario_source
      vector_tensor true 0
     = (Err IndexError, [], 0).
Proof.
  split.
  - apply (forward_missing_dimension Z 0%Z Z 0%Z float32_of_int64 Z.gtb unit
      nat scenario_model
             scalar_tensor scenario_target true 0).
    left. reflexivity.
  - apply (forward_missing_dimension Z 0%Z Z 0%Z float32_of_int64 Z.gtb unit
      nat scenario_model
             scenario_source vector_tensor true 0).
    right. simpl. lia.
Defined.

Lemma forward_empty_target_witness :
  forward 0%Z 0%Z float32_of_int64 Z.gtb scenario_model scenario_source
      empty_target true 0
  = (Err IndexError, [EvEncode scenario_source], 1).
Proof.
  apply (forward_empty_target Z 0%Z Z 0%Z float32_of_int64 Z.gtb unit nat
      scenario_model
           scenario_source empty_target true 0 1 2 2 [3] [] (tt, tt));
    reflexivity.
Defined.

Lemma forward_encoder_error_witness :
  forward 0%Z 0%Z float32_of_int64 Z.gtb (mkSequenceToSequence failing_encoder
      (one_hot_decoder 5))
    scenario_source scenario_target true 0
  = (Err (OtherError "encoder"), [EvEncode scenario_source], 1).
Proof.
  apply (forward_encoder_error Z 0%Z Z 0%Z float32_of_int64 Z.gtb unit nat
           (mkSequenceToSequence failing_encoder (one_hot_decoder 5))
           scenario_source scenario_target true 0 1 2 2 4 [3] []);
    reflexivity.
Defined.

Lemma forward_decoder_error_witness :
  forward 0%Z 0%Z float32_of_int64 Z.gtb (stub_model (failing_decoder 5))
    scenario_source scenario_target true 0
  = (Err (OtherError "decoder"),
     [EvEncode scenario_source; EvDecode (mkTensor [2; 1] [0; 0]%Z) None],
     2).
Proof.
  apply (forward_decoder_error Z 0%Z Z 0%Z float32_of_int64 Z.gtb unit nat
           (stub_model (failing_decoder 5))
           scenario_source scenario_target true 0 1 2 2 4 tt tt);
    try reflexivity.
  lia.
Defined.


Lemma forward_width_mismatch_witness :
  forward 0%Z 0%Z float32_of_int64 Z.gtb (stub_model (constant_decoder 5
      narrow_distribution))
    scenario_source scenario_target true 0
  = (Err ShapeMismatchError,
     [EvEncode scenario_source;
      EvDecode (mkTensor [2; 1] [0; 0]%Z) (Some narrow_distribution)],
     2).
Proof.
  apply (forward_width_mismatch Z 0%Z Z 0%Z float32_of_int64 Z.gtb unit nat
           (stub_model (constant_decoder 5 narrow_distribution))
           scenario_source scenario_target true 0 1 2 2 4 3 tt tt tt tt);
    try reflexivity; simpl; lia.
Defined.

Lemma forward_progress_witness :
  map fst
    (writes
       (trace_of
          (forward 0%Z 0%Z float32_of_int64 Z.gtb (stub_model
              (strict_one_hot_decoder 5))
             scenario_source scenario_target false 0)))
  = seq 1
      (length
         (writes
            (trace_of
               (forward 0%Z 0%Z float32_of_int64 Z.gtb (stub_model
                   (strict_one_hot_decoder 5))
                  scenario_source scenario_target false 0))))
  /\ length
       (decoder_inputs
          (trace_of
             (forward 0%Z 0%Z float32_of_int64 Z.gtb (stub_model
                 (strict_one_hot_decoder 5))
                scenario_source scenario_target false 0))) <= 4 - 1.
Proof.
  destruct (forward_progress Z 0%Z Z 0%Z float32_of_int64 Z.gtb unit nat
              (stub_model (strict_one_hot_decoder 5))
              scenario_source scenario_target false 0 4 eq_refl)
    as (Hw & Hd & _).
  split; assumption.
Defined.

Lemma forward_greedy_first_maximum_witness :
  exists d,
    nth_error
      (writes
         (trace_of
            (forward 0%Z 0%Z float32_of_int64 Z.gtb greedy_model
                scenario_source greedy_target
               false 0))) (1 - 1) = Some (1, d)
    /\ forall b V,
         shape d = [b; V] ->
         shape (mkTensor [2] [1; 0]%Z) = [b]
         /\ forall i, i < b ->
              exists k,
                nth i (data (mkTensor [2] [1; 0]%Z)) 0%Z = Z.of_nat k
                /\ k < V
                /\ (forall j, j < V ->
                      Z.gtb (nth (i * V + j) (data d) 0%Z)
                            (nth (i * V + k) (data d) 0%Z) = false)
                /\ (forall j, j < k ->
                      Z.gtb (nth (i * V + k) (data d) 0%Z)
                            (nth (i * V + j) (data d) 0%Z) = true).
Proof.
  apply (forward_greedy_first_maximum Z 0%Z Z 0%Z float32_of_int64 Z.gtb unit
      nat
           Z_gtb_strict_weak_order greedy_model scenario_source
           greedy_target 0 1 (mkTensor [2] [1; 0]%Z)).
  - lia.
  - vm_compute. reflexivity.
Defined.

Lemma forward_column_broadcast_witness :
  result_of
    (forward 0%Z 0%Z float32_of_int64 Z.gtb (stub_model (constant_decoder 5
        column_distribution))
       scenario_source scenario_target true 0) = Ok column_output
  /\ select1 0%Z column_output 1
     = Ok (mkTensor [2; 5] [7; 7; 7; 7; 7; 9; 9; 9; 9; 9]%Z).
Proof.
  split; [vm_compute; reflexivity|].
  rewrite (forward_column_broadcast Z 0%Z Z 0%Z float32_of_int64 Z.gtb unit nat
             (stub_model (constant_decoder 5 column_distribution))
             scenario_source scenario_target true 0 2 4 1 column_output
             column_distribution eq_refl eq_refl).
  - reflexivity.
  - vm_compute. reflexivity.
  - vm_compute. left. reflexivity.
  - reflexivity.
Defined.

Lemma forward_threads_state_witness :
  result_of
    (forward 0%Z 0%Z float32_of_int64 Z.gtb (stub_model (counting_decoder 5))
       scenario_source scenario_target true 0) = Ok counting_output
  /\ decoder_chain 0%Z Z.gtb (stub_model (counting_decoder 5))
       scenario_target 2 true (range1 4) (mkTensor [2; 1] [0; 0]%Z)
       tt tt 1
     = [mkTensor [2; 5] [0; 1; 0; 0; 0; 0; 1; 0; 0; 0]%Z;
        mkTensor [2; 5] [0; 0; 1; 0; 0; 0; 0; 1; 0; 0]%Z;
        mkTensor [2; 5] [0; 0; 0; 1; 0; 0; 0; 0; 1; 0]%Z]
  /\ select1 0%Z counting_output 3
     = expand 0%Z
         (to_dtype float32_of_int64
            (mkTensor [2; 5] [0; 0; 0; 1; 0; 0; 0; 0; 1; 0]%Z))
         [2; 5].
Proof.
  split; [vm_compute; reflexivity|].
  split; [vm_compute; reflexivity|].
  apply (proj2 (forward_threads_state Z 0%Z Z 0%Z float32_of_int64 Z.gtb unit
      nat
                  (stub_model (counting_decoder 5))
                  scenario_source scenario_target true 0 1 2 4 tt tt
                  (mkTensor [2; 1] [0; 0]%Z) counting_output
                  eq_refl eq_refl eq_refl eq_refl
                  ltac:(vm_compute; reflexivity)) 2).
  vm_compute. reflexivity.
Defined.

Lemma forward_greedy_target_use_witness :
  forward 0%Z 0%Z float32_of_int64 Z.gtb scenario_model scenario_source
      scenario_target false 0
  = forward 0%Z 0%Z float32_of_int64 Z.gtb scenario_model scenario_source
      scenario_target_rest
      false 0.
Proof.
  apply (forward_greedy_target_use Z 0%Z Z 0%Z float32_of_int64 Z.gtb unit nat
      scenario_model
           scenario_source scenario_target scenario_target_rest 0).
  - reflexivity.
  - intros b [= <-]. vm_compute. reflexivity.
Defined.

Lemma forward_teacher_last_column_witness :
  result_of
    (forward 0%Z 0%Z float32_of_int64 Z.gtb scenario_model scenario_source
        scenario_target true 0)
  = result_of
      (forward 0%Z 0%Z float32_of_int64 Z.gtb scenario_model scenario_source
          scenario_target_last
         true 0).
Proof.
  apply (forward_teacher_last_column Z 0%Z Z 0%Z float32_of_int64 Z.gtb unit
      nat scenario_model
           scenario_source scenario_target scenario_target_last 0 2 4).
  - reflexivity.
  - reflexivity.
  - exact scenario_targets_agree.
Defined.
